(** * Verification of the fetch interceptor (src/fetch-interceptor.ts)

    A shallow embedding of the header redactor, the token claim parser, the
    body capture functions, the per-call orchestrator and the install /
    restore lifecycle, followed by the theorems that settle the specified
    properties.

    Conventions of the embedding.
    - A JavaScript string is a [string]: a sequence of code units below 256.
    - A JavaScript number is a rational ([VNum]) or NaN ([VNaN]); integers
      (lengths, parsed header values) are kept exact, where the source holds
      their nearest double once they pass 2^53.
    - A plain object is an association list in insertion order, with at most
      one entry per key ([obj_set] keeps it so); the reordering of keys that
      look like array indices is not modelled.  Assigning a string to the
      name [__proto__] of an object literal creates no property
      ([obj_assign]).
    - A [Headers] object is the list of entries its [forEach] presents.
    - A computation that may throw returns a [Completion].
    - What the host runtime provides (JSON, base64, URL parsing, ...) is the
      interface [Runtime]; the theorems hold for every runtime, and
      [reference_runtime] is a concrete one on which examples are run. *)

From Stdlib Require Import String Ascii List Bool Arith ZArith QArith Lia.
From Stdlib Require Import DecimalString Strings.Byte.
From Stdlib Require Import Floats.PrimFloat Numbers.Cyclic.Int63.Uint63.
Import ListNotations.
Set Warnings "-register-all,-inexact-float".
Close Scope Q_scope.
Open Scope string_scope.
Open Scope list_scope.
Open Scope nat_scope.

(* ================================================================== *)
(** ** Strings as the source uses them *)

(** [String.prototype.toLowerCase] on one code unit: A-Z, and the upper-case
    letters of the Latin-1 block (U+00C0..U+00DE except the multiplication
    sign U+00D7). *)
Definition lower_ascii (c : ascii) : ascii :=
  let n := nat_of_ascii c in
  if ((65 <=? n) && (n <=? 90))
     || ((192 <=? n) && (n <=? 222) && negb (n =? 215))
  then ascii_of_nat (n + 32) else c.

Fixpoint toLowerCase (s : string) : string :=
  match s with
  | EmptyString => EmptyString
  | String c r => String (lower_ascii c) (toLowerCase r)
  end.

Fixpoint startsWith (p s : string) : bool :=
  match p, s with
  | EmptyString, _ => true
  | String a p', String b s' => Ascii.eqb a b && startsWith p' s'
  | String _ _, EmptyString => false
  end.

(** [s.includes(sub)] *)
Fixpoint includes (s sub : string) : bool :=
  startsWith sub s
  || match s with
     | EmptyString => false
     | String _ r => includes r sub
     end.

(** [s.substring(0, n)] *)
Fixpoint take (n : nat) (s : string) : string :=
  match n, s with
  | S k, String c r => String c (take k r)
  | _, _ => EmptyString
  end.

(** [s.slice(0, -1)] *)
Fixpoint drop_last (s : string) : string :=
  match s with
  | EmptyString => EmptyString
  | String _ EmptyString => EmptyString
  | String c r => String c (drop_last r)
  end.

(** [c.repeat(n)] for a one-character string *)
Fixpoint repeat_char (c : ascii) (n : nat) : string :=
  match n with
  | O => EmptyString
  | S k => String c (repeat_char c k)
  end.

(** [s.replace(/a/g, b)] for single characters *)
Fixpoint replace_char (a b : ascii) (s : string) : string :=
  match s with
  | EmptyString => EmptyString
  | String c r => String (if Ascii.eqb c a then b else c) (replace_char a b r)
  end.

(** [s.split('.')] *)
Fixpoint split_dot (s : string) : list string :=
  match s with
  | EmptyString => [EmptyString]
  | String c r =>
      if Ascii.eqb c "."%char then EmptyString :: split_dot r
      else match split_dot r with
           | hd :: tl => String c hd :: tl
           | [] => [String c EmptyString]
           end
  end.

(** The characters [\s] matches among code units below 256. *)
Definition is_space (c : ascii) : bool :=
  let n := nat_of_ascii c in
  ((9 <=? n) && (n <=? 13)) || (n =? 32) || (n =? 160).

Fixpoint drop_spaces (s : string) : string :=
  match s with
  | String c r => if is_space c then drop_spaces r else s
  | EmptyString => EmptyString
  end.

(** Matches [pat] (given in lower case) at the start of [s], ignoring ASCII
    case; returns what follows the match. *)
Fixpoint match_ignore_case (pat s : string) : option string :=
  match pat, s with
  | EmptyString, _ => Some s
  | String a p', String b s' =>
      if Ascii.eqb a (lower_ascii b) && (nat_of_ascii b <? 128)
      then match_ignore_case p' s' else None
  | String _ _, EmptyString => None
  end.

(** [token.replace(/^Bearer\s+/i, '')] *)
Definition strip_bearer (token : string) : string :=
  match match_ignore_case "bearer" token with
  | Some (String c r) => if is_space c then drop_spaces r else token
  | _ => token
  end.

(** Decimal text of a natural number (array indices, lengths). *)
Definition nat_to_string (n : nat) : string :=
  NilEmpty.string_of_uint (Nat.to_uint n).

(* ================================================================== *)
(** ** JavaScript values, thrown values, completions *)

Inductive Value : Type :=
| VUndefined
| VNull
| VBool (b : bool)
| VNum (q : Q)
| VNaN
| VStr (s : string)
| VArr (items : list Value)
| VObj (props : list (string * Value))
| VHost (kind : string).   (* a host object: Blob, DataView, ... *)

(** What a [throw] carries: an [Error] instance (its name and message) or
    any other value. *)
Inductive Thrown : Type :=
| ErrorObject (name message : string)
| ThrownValue (v : Value).

Inductive Completion (A : Type) : Type :=
| Normal (a : A)
| Throw (e : Thrown).
Arguments Normal {A} a.
Arguments Throw {A} e.

Definition bindC {A B} (c : Completion A) (k : A -> Completion B) : Completion B :=
  match c with
  | Normal a => k a
  | Throw e => Throw e
  end.

(** [try { c } catch (error) { h error }] *)
Definition try_catch {A} (c : Completion A) (h : Thrown -> Completion A) : Completion A :=
  match c with
  | Normal a => Normal a
  | Throw e => h e
  end.

(** [error instanceof Error ? error.message : 'Unknown error'] *)
Definition failure_message (e : Thrown) : string :=
  match e with
  | ErrorObject _ m => m
  | ThrownValue _ => "Unknown error"
  end.

(** ToBoolean *)
Definition truthy (v : Value) : bool :=
  match v with
  | VUndefined | VNull | VNaN => false
  | VBool b => b
  | VNum q => negb (Qeq_bool q 0)
  | VStr s => negb (String.eqb s "")
  | VArr _ | VObj _ | VHost _ => true
  end.

(** ** Plain objects: association lists in insertion order *)

Section Objects.
Context {V : Type}.

Fixpoint obj_get (o : list (string * V)) (k : string) : option V :=
  match o with
  | [] => None
  | (k', v) :: r => if String.eqb k' k then Some v else obj_get r k
  end.

(** [o[k] = v]: overwrite in place, or append a new property. *)
Fixpoint obj_set (o : list (string * V)) (k : string) (v : V) : list (string * V) :=
  match o with
  | [] => [(k, v)]
  | (k', v') :: r =>
      if String.eqb k' k then (k', v) :: r else (k', v') :: obj_set r k v
  end.

Definition obj_keys (o : list (string * V)) : list string := map fst o.

(** [{ ...o }], [Object.fromEntries(entries)] *)
Definition obj_of_entries (entries : list (string * V)) : list (string * V) :=
  fold_left (fun acc kv => obj_set acc (fst kv) (snd kv)) entries [].
End Objects.

(** [o[k] = v] for a string [v], on an object created by the literal [{}]:
    an ordinary name is set as [obj_set] does; the name [__proto__] reaches
    the accessor inherited from [Object.prototype], whose setter ignores a
    value that is not an object, so no property is created. *)
Definition obj_assign (o : list (string * string)) (k v : string)
  : list (string * string) :=
  if String.eqb k "__proto__" then o else obj_set o k v.

(** [entries.forEach((value, key) => { obj[key] = value })] on [obj = {}] *)
Definition obj_assign_all (entries : list (string * string))
  : list (string * string) :=
  fold_left (fun obj kv => obj_assign obj (fst kv) (snd kv)) entries [].

(* ================================================================== *)
(** ** The host runtime *)

Class Runtime : Type := {
  (** [JSON.parse]: the value, or the SyntaxError it throws *)
  JSON_parse : string -> Completion Value;
  (** [JSON.stringify], on the values that serialize: strings, numbers,
      parsed JSON and the marker objects always do (a host object holding
      BigInt elements or a cycle, for which the source throws, has no
      text and is outside this interface) *)
  JSON_stringify : Value -> string;
  (** [String(n)] for a finite number *)
  Number_toString : Q -> string;
  (** [Buffer.from(s, 'base64').toString('utf8')] *)
  base64_to_utf8 : string -> string;
  (** [new TextDecoder().decode(bytes)] *)
  TextDecoder_decode : list byte -> string;
  (** the entries of [new URLSearchParams(text)] *)
  URLSearchParams_entries : string -> list (string * string);
  (** [new URL(url)]: its [protocol] and [host], or the TypeError it throws *)
  URL_parse : string -> Completion (string * string);
  (** [getPackageVersion()] of ./version.js *)
  getPackageVersion : string
}.

(* ================================================================== *)
(** ** Header redactor and token claim parser *)

Definition SENSITIVE_HEADERS : list string :=
  [ "authorization"; "cookie"; "set-cookie"; "x-api-key"; "x-auth-token";
    "x-access-token"; "x-kubiks-key"; "bearer"; "proxy-authorization";
    "www-authenticate"; "proxy-authenticate" ].

Definition REDACTED : string := "[REDACTED]".

(** [SENSITIVE_HEADERS.some(sensitive => lowerKey.includes(sensitive))] *)
Definition is_sensitive (lowerKey : string) : bool :=
  existsb (fun sensitive => includes lowerKey sensitive) SENSITIVE_HEADERS.

(** A header object and a claims object: string-valued plain objects. *)
Definition Headers := list (string * string).
Definition Claims := list (string * string).

(** The object store: header objects are passed by reference. *)
Record Store : Type := {
  cell : nat -> Headers;   (* the object at each reference *)
  next : nat               (* the first unused reference *)
}.

Definition empty_store : Store := {| cell := fun _ => []; next := 0 |}.

Definition alloc (s : Store) (o : Headers) : Store * nat :=
  ({| cell := fun a => if a =? next s then o else cell s a;
      next := S (next s) |},
   next s).

(** [ref[k] = v] *)
Definition write_prop (s : Store) (ref : nat) (k v : string) : Store :=
  {| cell := fun a => if a =? ref then obj_set (cell s ref) k v else cell s a;
     next := next s |}.

(** A loop whose body may throw. *)
Fixpoint foldC {A B} (body : A -> B -> Completion A) (l : list B) (a : A)
  : Completion A :=
  match l with
  | [] => Normal a
  | x :: r => bindC (body a x) (foldC body r)
  end.

Fixpoint indexed_from {A} (i : nat) (l : list A) : list (string * A) :=
  match l with
  | [] => []
  | x :: r => (nat_to_string i, x) :: indexed_from (S i) r
  end.

(** [Object.entries(v)] for a value that is neither null nor undefined. *)
Definition Object_entries (v : Value) : list (string * Value) :=
  match v with
  | VObj props => props
  | VArr items => indexed_from 0 items
  | VStr s =>
      indexed_from 0 (map (fun c => VStr (String c EmptyString))
                          (list_ascii_of_string s))
  | _ => []
  end.

Section WithRuntime.
Context {R : Runtime}.

(** [typeof v] is 'string', 'number' or 'boolean': [Some (String(v))];
    otherwise [None]. *)
Definition scalar_to_String (v : Value) : option string :=
  match v with
  | VStr s => Some s
  | VNum q => Some (Number_toString q)
  | VNaN => Some "NaN"
  | VBool true => Some "true"
  | VBool false => Some "false"
  | _ => None
  end.

Definition parseJWTClaims (token : string) : Completion Value :=
  try_catch
    (let cleanToken := strip_bearer token in
     let parts := split_dot cleanToken in
     if negb (length parts =? 3) then Normal VNull
     else
       let payload := nth 1 parts "" in
       let padded :=
         (payload ++ repeat_char "=" ((4 - String.length payload mod 4) mod 4))%string in
       let decoded :=
         base64_to_utf8
           (replace_char "_" "/" (replace_char "-" "+" padded)) in
       JSON_parse decoded)
    (fun _ => Normal VNull).

(** The inner loop of the redactor: the scalar claims, under [token.]. *)
Definition add_claims (jwtClaims : Claims) (claims : Value) : Claims :=
  fold_left
    (fun acc entry =>
       match scalar_to_String (snd entry) with
       | Some text => obj_set acc ("token." ++ fst entry)%string text
       | None => acc
       end)
    (Object_entries claims) jwtClaims.

(** One iteration of [for (const key in redactedHeaders)]. *)
Definition redact_step (redactedHeaders : nat) (st : Store * Claims) (key : string)
  : Completion (Store * Claims) :=
  let '(s, jwtClaims) := st in
  let lowerKey := toLowerCase key in
  if is_sensitive lowerKey then
    bindC
      (match obj_get (cell s redactedHeaders) key with
       | Some value =>
           if includes lowerKey "authorization" && negb (String.eqb value "")
           then
             bindC (parseJWTClaims value) (fun claims =>
               Normal (if truthy claims then add_claims jwtClaims claims
                       else jwtClaims))
           else Normal jwtClaims
       | None => Normal jwtClaims
       end)
      (fun jwtClaims' =>
         Normal (write_prop s redactedHeaders key REDACTED, jwtClaims'))
  else Normal st.

(** [redactSensitiveHeaders(headers)], with [headers] a reference into the
    store: returns the store after the call, the reference of
    [redactedHeaders] and the claims. *)
Definition redactSensitiveHeaders (s : Store) (headers : nat)
  : Completion (Store * (nat * Claims)) :=
  let '(s0, redactedHeaders) := alloc s (obj_of_entries (cell s headers)) in
  bindC
    (foldC (redact_step redactedHeaders)
           (obj_keys (cell s0 redactedHeaders)) (s0, ([] : Claims)))
    (fun st => Normal (fst st, (redactedHeaders, snd st))).

(** The same call on a header object given by value. *)
Definition redact_headers (headers : Headers) : Completion (Headers * Claims) :=
  let '(s, ref) := alloc empty_store headers in
  bindC (redactSensitiveHeaders s ref) (fun r =>
    Normal (cell (fst r) (fst (snd r)), snd (snd r))).

End WithRuntime.

(* ================================================================== *)
(** ** Interceptor configuration *)

(** [FetchInterceptorOptions]: every field is optional. *)
Record FetchInterceptorOptions : Type := {
  opt_captureRequestBody : option bool;
  opt_captureResponseBody : option bool;
  opt_captureHeaders : option bool;
  opt_maxBodySize : option Z
}.

(** [this.options] once the constructor has merged the defaults. *)
Module Options.
Record t : Type := {
  captureRequestBody : bool;
  captureResponseBody : bool;
  captureHeaders : bool;
  maxBodySize : Z
}.
End Options.

Definition or_default {A} (o : option A) (d : A) : A :=
  match o with Some a => a | None => d end.

(** [{ captureRequestBody: true, ..., maxBodySize: 10000, ...options }] *)
Definition with_defaults (options : FetchInterceptorOptions) : Options.t :=
  {| Options.captureRequestBody := or_default (opt_captureRequestBody options) true;
     Options.captureResponseBody := or_default (opt_captureResponseBody options) true;
     Options.captureHeaders := or_default (opt_captureHeaders options) true;
     Options.maxBodySize := or_default (opt_maxBodySize options) 10000%Z |}.

Definition no_options : FetchInterceptorOptions :=
  {| opt_captureRequestBody := None; opt_captureResponseBody := None;
     opt_captureHeaders := None; opt_maxBodySize := None |}.

(* ================================================================== *)
(** ** Body classifier and decoder *)

(** [HeadersInit]: a [Headers] object, an array of pairs, or a record.  A
    [Headers] object is given by the entries its [forEach] presents (for a
    real one: lower-case names, each once, values already merged); an array
    by its pairs; a record by its [Object.entries]. *)
Inductive HeadersInit : Type :=
| HeadersObject (entries : list (string * string))
| HeaderPairs (pairs : list (string * string))
| HeaderRecord (props : Headers).

(** [BodyInit], by the runtime shape the capture dispatches on. *)
Inductive BodyInit : Type :=
| BodyFormData
| BodyURLSearchParams (entries : list (string * string))
| BodyReadableStream
| BodyArrayBuffer (bytes : list byte)
| BodyUint8Array (buffer : list byte) (byteOffset byteLength : nat)
| BodyString (s : string)
| BodyOther (kind : string).   (* any other value: handed back as it is *)

(** Every branch of [normalizeHeaders] runs the same assignment
    [normalized[key.toLowerCase()] = value] over the entries. *)
Definition normalizeHeaders (headers : HeadersInit) : Headers :=
  let entries :=
    match headers with
    | HeadersObject entries => entries
    | HeaderPairs pairs => pairs
    | HeaderRecord props => props
    end in
  fold_left (fun normalized kv =>
               obj_assign normalized (toLowerCase (fst kv)) (snd kv))
            entries [].

Definition getContentType (headers : option HeadersInit) : option string :=
  match headers with
  | None => None
  | Some h => obj_get (normalizeHeaders h) "content-type"
  end.

Definition is_control_byte (b : byte) : bool :=
  let n := Byte.to_nat b in
  (n <? 32) && negb (n =? 9) && negb (n =? 10) && negb (n =? 13).

Definition Qgt_bool (a b : Q) : bool := negb (Qle_bool a b).

(** [nonPrintableCount / bytes.length > 0.3].  The quotient is taken in the
    rationals: for an empty array the source compares NaN, which is not
    greater than 0.3, and [Qdiv] by zero gives 0; for a non-empty array of
    fewer than 2^52 bytes the ratio differs from 3/10 by more than the
    rounding of the division unless they are equal, so the comparison of
    the doubles agrees with the exact one ([isBinary_double] below is the
    binary64 evaluation, compared with this one in [isBinary_double_agrees]). *)
Definition isBinary (bytes : list byte) : bool :=
  let nonPrintableCount := length (filter is_control_byte bytes) in
  Qgt_bool (inject_Z (Z.of_nat nonPrintableCount) / inject_Z (Z.of_nat (length bytes)))
           (3 # 10).

(** The same test in binary64 arithmetic, as the source evaluates it: both
    numbers converted to doubles, their quotient rounded, and compared with
    the double nearest to 0.3. *)
Definition to_double (n : nat) : float :=
  PrimFloat.of_uint63 (Uint63.of_Z (Z.of_nat n)).

Definition isBinary_double (bytes : list byte) : bool :=
  let nonPrintableCount := length (filter is_control_byte bytes) in
  PrimFloat.ltb 0.3%float
    (PrimFloat.div (to_double nonPrintableCount) (to_double (length bytes))).

Definition binaryTypes : list string :=
  [ "image/"; "video/"; "audio/"; "application/octet-stream";
    "application/pdf"; "application/zip"; "multipart/form-data" ].

Definition isBinaryContentType (contentType : string) : bool :=
  let lowerContentType := toLowerCase contentType in
  existsb (fun type => includes lowerContentType type) binaryTypes.

(** [parseInt(s, 10)]: [None] is NaN.  The integer read is kept exact; it
    is the number the source holds whenever its absolute value is at most
    2^53 (beyond that the source holds the nearest double). *)
Definition digit_of (c : ascii) : option Z :=
  let n := nat_of_ascii c in
  if (48 <=? n) && (n <=? 57) then Some (Z.of_nat (n - 48)) else None.

Fixpoint read_digits (s : string) (acc : option Z) : option Z :=
  match s with
  | String c r =>
      match digit_of c with
      | Some d => read_digits r (Some (10 * or_default acc 0 + d)%Z)
      | None => acc
      end
  | EmptyString => acc
  end.

Definition parseInt10 (s : string) : option Z :=
  match drop_spaces s with
  | String "-"%char r => option_map Z.opp (read_digits r None)
  | String "+"%char r => read_digits r None
  | t => read_digits t None
  end.

Definition number_value (n : option Z) : Value :=
  match n with
  | Some z => VNum (inject_Z z)
  | None => VNaN
  end.

Definition VLength (n : nat) : Value := VNum (inject_Z (Z.of_nat n)).

(** [n > max], false when [n] is NaN *)
Definition exceeds (n : option Z) (max : Z) : bool :=
  match n with
  | Some z => (max <? z)%Z
  | None => false
  end.

(** A response handle. *)
Record Response : Type := {
  status : Z;
  statusText : string;
  response_headers : Headers;     (* as [headers.forEach] presents them *)
  bodyUsed : bool;
  body_text : Completion string   (* what reading the body to its end gives *)
}.

Definition mark_used (r : Response) : Response :=
  {| status := status r; statusText := statusText r;
     response_headers := response_headers r;
     bodyUsed := true; body_text := body_text r |}.

(** [response.headers.get(name)] *)
Definition headers_get (r : Response) (name : string) : option string :=
  option_map snd
    (find (fun kv => String.eqb (toLowerCase (fst kv)) (toLowerCase name))
          (response_headers r)).

(** [response.clone()] *)
Definition Response_clone (r : Response) : Completion Response :=
  if bodyUsed r
  then Throw (ErrorObject "TypeError" "Response.clone: Body has already been consumed.")
  else Normal r.

(** [await response.text()]: the handle afterwards, and the text *)
Definition Response_text (r : Response) : Response * Completion string :=
  if bodyUsed r
  then (r, Throw (ErrorObject "TypeError" "Body is unusable: Body has already been read"))
  else (mark_used r, body_text r).

(** [s || d] for an optional string *)
Definition or_else (s : option string) (d : string) : string :=
  match s with
  | Some t => if String.eqb t "" then d else t
  | None => d
  end.

Definition of_strings (o : list (string * string)) : list (string * Value) :=
  map (fun kv => (fst kv, VStr (snd kv))) o.

Section Capture.
Context {R : Runtime}.
Variable options : Options.t.

Definition template_number (n : option Z) : string :=
  match n with
  | Some z => Number_toString (inject_Z z)
  | None => "NaN"
  end.

(** The inner [try { return JSON.parse(text) } catch { return text }] *)
Definition parse_or_text (text : string) : Completion Value :=
  try_catch (JSON_parse text) (fun _ => Normal (VStr text)).

Definition parseBodyText (text : string) (contentType : option string)
  : Completion Value :=
  try_catch
    (match contentType with
     | None => parse_or_text text
     | Some "" => parse_or_text text
     | Some contentType =>
         let lowerContentType := toLowerCase contentType in
         if includes lowerContentType "application/json" then
           JSON_parse text
         else if includes lowerContentType "application/x-www-form-urlencoded" then
           Normal (VObj (of_strings (obj_of_entries (URLSearchParams_entries text))))
         else if includes lowerContentType "text/" then
           Normal (VStr text)
         else parse_or_text text
     end)
    (fun _ => Normal (VStr text)).

Definition truncated_with_preview (text : string) : Value :=
  VObj [ ("_truncated", VBool true);
         ("_size", VLength (String.length text));
         ("_preview", VStr (take 100 text)) ].

Definition capture_error (what : string) (error : Thrown) : Value :=
  VObj [ ("_error", VStr what); ("_message", VStr (failure_message error)) ].

Definition captureRequestBody (body : BodyInit) (headers : option HeadersInit)
  : Completion Value :=
  try_catch
    (let contentType := getContentType headers in
     match body with
     | BodyFormData =>
         Normal (VObj [ ("_type", VStr "FormData");
                        ("_note", VStr "FormData not captured (likely contains files)") ])
     | BodyURLSearchParams entries =>
         Normal (VObj (of_strings (obj_assign_all entries)))
     | BodyReadableStream =>
         Normal (VObj [ ("_type", VStr "ReadableStream");
                        ("_note", VStr "Stream not captured") ])
     | BodyArrayBuffer bytes
     | BodyUint8Array bytes _ _ =>
         (* [new Uint8Array(body.buffer)]: the whole underlying buffer *)
         if isBinary bytes then
           Normal (VObj [ ("_type", VStr "Binary");
                          ("_size", VLength (length bytes));
                          ("_note", VStr "Binary data not captured") ])
         else parseBodyText (TextDecoder_decode bytes) contentType
     | BodyString s =>
         if (Options.maxBodySize options <? Z.of_nat (String.length s))%Z then
           Normal (truncated_with_preview s)
         else parseBodyText s contentType
     | BodyOther kind => Normal (VHost kind)
     end)
    (fun error => Normal (capture_error "Failed to capture request body" error)).

(** Returns the handle as the call leaves it, and the outcome. *)
Definition captureResponseBody (response : Response) : Response * Completion Value :=
  let '(response', result) :=
    let contentType := or_else (headers_get response "content-type") "" in
    let contentLength :=
      parseInt10 (or_else (headers_get response "content-length") "0") in
    if exceeds contentLength (Options.maxBodySize options) then
      (response,
       Normal (VObj [ ("_truncated", VBool true);
                      ("_size", number_value contentLength);
                      ("_note", VStr ("Response too large ("
                                      ++ template_number contentLength
                                      ++ " bytes)")%string) ]))
    else if isBinaryContentType contentType then
      (response,
       Normal (VObj [ ("_type", VStr "Binary");
                      ("_contentType", VStr contentType);
                      ("_size", number_value contentLength);
                      ("_note", VStr "Binary content not captured") ]))
    else
      let '(response', read) := Response_text response in
      (response',
       bindC read (fun text =>
         if (Options.maxBodySize options <? Z.of_nat (String.length text))%Z then
           Normal (truncated_with_preview text)
         else parseBodyText text (Some contentType)))
  in
  (response',
   try_catch result
     (fun error => Normal (capture_error "Failed to capture response body" error))).

End Capture.

(* ================================================================== *)
(** ** Spans and the capture orchestrator *)

Inductive SpanStatus : Type :=
| StatusOK
| StatusERROR (message : string).

(** What one span has recorded: its attributes in the order they were set,
    the last status set, and how many times [end()] was called. *)
Record Span : Type := {
  span_name : string;
  attributes : list (string * Value);
  span_status : option SpanStatus;
  end_count : nat
}.

(** A computation on the active span that may throw. *)
Definition SpanM (A : Type) : Type := Span -> Span * Completion A.

Definition retS {A} (a : A) : SpanM A := fun sp => (sp, Normal a).

Definition bindS {A B} (m : SpanM A) (k : A -> SpanM B) : SpanM B :=
  fun sp =>
    match m sp with
    | (sp', Normal a) => k a sp'
    | (sp', Throw e) => (sp', Throw e)
    end.

Definition liftC {A} (c : Completion A) : SpanM A := fun sp => (sp, c).

Declare Scope span_scope.
Delimit Scope span_scope with span.
Notation "x <- m ;; k" := (bindS m (fun x => k))
  (at level 61, m at next level, right associativity) : span_scope.
Notation "m ;; k" := (bindS m (fun _ => k))
  (at level 61, right associativity) : span_scope.

Definition setAttributes (attrs : list (string * Value)) : SpanM unit :=
  fun sp =>
    ({| span_name := span_name sp;
        attributes := attributes sp ++ attrs;
        span_status := span_status sp;
        end_count := end_count sp |}, Normal tt).

Definition setAttribute (name : string) (v : Value) : SpanM unit :=
  setAttributes [(name, v)].

Definition setStatus (st : SpanStatus) : SpanM unit :=
  fun sp =>
    ({| span_name := span_name sp;
        attributes := attributes sp;
        span_status := Some st;
        end_count := end_count sp |}, Normal tt).

Definition span_end (sp : Span) : Span :=
  {| span_name := span_name sp;
     attributes := attributes sp;
     span_status := span_status sp;
     end_count := S (end_count sp) |}.

(** [try { body } catch (error) { handler error } finally { span.end() }] *)
Definition try_catch_finally {A} (body : SpanM A) (handler : Thrown -> SpanM A)
  : SpanM A :=
  fun sp =>
    let '(sp1, r) := body sp in
    let '(sp2, r') :=
      match r with
      | Normal a => (sp1, Normal a)
      | Throw e => handler e sp1
      end in
    (span_end sp2, r').

(** [flatten({ <side>: { headers } })] of the flat package: one attribute per
    header, named by the dotted path; an empty object is kept as a value. *)
Definition flatten_headers (side : string) (headers : Headers) : list (string * Value) :=
  match headers with
  | [] => [((side ++ ".headers")%string, VObj [])]
  | _ => map (fun kv => ((side ++ ".headers." ++ fst kv)%string, VStr (snd kv))) headers
  end.

(** The first argument of a call. *)
Inductive FetchInput : Type :=
| InputString (url : string)
| InputURL (href : string)
| InputRequest (url : string).

Record RequestInit : Type := {
  init_method : option string;
  init_headers : option HeadersInit;
  init_body : option BodyInit
}.

(** [init?.body] as a condition: only the empty string is falsy. *)
Definition body_present (b : BodyInit) : bool :=
  match b with
  | BodyString s => negb (String.eqb s "")
  | _ => true
  end.

(** The real transport: returns a response or throws. *)
Definition Transport : Type := FetchInput -> option RequestInit -> Completion Response.

Section Orchestrator.
Context {R : Runtime}.
Variable options : Options.t.
Variable originalFetch : Transport.

Local Open Scope span_scope.

(** [redactSensitiveHeaders], [setAttributes(flatten(...))] and the claims *)
Definition attach_headers (side : string) (headers : Headers) : SpanM unit :=
  r <- liftC (redact_headers headers) ;;
  setAttributes (flatten_headers side (fst r)) ;;
  match snd r with
  | [] => retS tt
  | jwtClaims => setAttributes (of_strings jwtClaims)
  end.

(** [if (bodyData) span.setAttribute(name, ...)] *)
Definition attach_body (name : string) (bodyData : Value) : SpanM unit :=
  if truthy bodyData then
    setAttribute name
      (VStr match bodyData with
            | VStr s => s
            | _ => JSON_stringify bodyData
            end)
  else retS tt.

Definition request_phase (init : option RequestInit) : SpanM unit :=
  (match init with
   | Some {| init_headers := Some headers |} =>
       if Options.captureHeaders options
       then attach_headers "request" (normalizeHeaders headers)
       else retS tt
   | _ => retS tt
   end) ;;
  match init with
  | Some {| init_headers := headers; init_body := Some body |} =>
      if Options.captureRequestBody options && body_present body then
        bodyData <- liftC (captureRequestBody options body headers) ;;
        attach_body "request.body" bodyData
      else retS tt
  | _ => retS tt
  end.

Definition response_phase (response : Response) : SpanM unit :=
  setAttributes [ ("http.status_code", VNum (inject_Z (status response)));
                  ("http.status_text", VStr (statusText response)) ] ;;
  (if Options.captureHeaders options
   then attach_headers "response"
          (normalizeHeaders (HeadersObject (response_headers response)))
   else retS tt) ;;
  if Options.captureResponseBody options then
    responseClone <- liftC (Response_clone response) ;;
    bodyData <- liftC (snd (captureResponseBody options responseClone)) ;;
    attach_body "response.body" bodyData
  else retS tt.

(** The callback given to [startActiveSpan]. *)
Definition traced_call (input : FetchInput) (init : option RequestInit)
  : SpanM Response :=
  try_catch_finally
    (request_phase init ;;
     response <- liftC (originalFetch input init) ;;
     response_phase response ;;
     setStatus StatusOK ;;
     retS response)
    (fun error =>
       setStatus (StatusERROR (failure_message error)) ;;
       liftC (Throw error)).

Definition input_url (input : FetchInput) : string :=
  match input with
  | InputString url => url
  | InputURL href => href
  | InputRequest url => url
  end.

Definition request_method (init : option RequestInit) : string :=
  match init with
  | Some i => or_else (init_method i) "GET"
  | None => "GET"
  end.

(** The function installed in the transport slot.  Returns the span of the
    call, if one was started, and the outcome of the call. *)
Definition interceptFetch (input : FetchInput) (init : option RequestInit)
  : option Span * Completion Response :=
  let url := input_url input in
  let method := request_method init in
  match URL_parse url with
  | Throw e => (None, Throw e)
  | Normal (protocol, host) =>
      let span :=
        {| span_name := ("fetch " ++ method)%string;
           attributes :=
             [ ("http.method", VStr method);
               ("http.url", VStr url);
               ("http.scheme", VStr (drop_last protocol));
               ("http.host", VStr host);
               ("kubiks.otel.source", VStr "otel-nextjs");
               ("kubiks.otel.version", VStr getPackageVersion);
               ("kubiks.otel.instrumentation", VStr "fetch-interceptor") ];
           span_status := None;
           end_count := 0 |} in
      let '(span', r) := traced_call input init span in
      (Some span', r)
  end.

End Orchestrator.

(* ================================================================== *)
(** ** Interception installer *)

(** What the process-wide transport slot can hold: the runtime's own
    transport, or the wrapper an interceptor installed around the function
    it saved. *)
Inductive Fetch : Type :=
| Native (transport : Transport)
| Intercepting (options : Options.t) (originalFetch : Fetch).

(** An instance of the class [FetchInterceptor]. *)
Record FetchInterceptor : Type := {
  this_options : Options.t;
  this_originalFetch : Fetch
}.

(** The module-level state: [globalThis.fetch] and [interceptorInstance]. *)
Record Global : Type := {
  globalThis_fetch : Fetch;
  interceptorInstance : option FetchInterceptor
}.

Definition set_fetch (g : Global) (f : Fetch) : Global :=
  {| globalThis_fetch := f; interceptorInstance := interceptorInstance g |}.

(** [new FetchInterceptor(options)]: merges the defaults, saves the current
    transport and installs the wrapper. *)
Definition new_FetchInterceptor (options : FetchInterceptorOptions) (g : Global)
  : Global * FetchInterceptor :=
  let self := {| this_options := with_defaults options;
                 this_originalFetch := globalThis_fetch g |} in
  (set_fetch g (Intercepting (this_options self) (this_originalFetch self)), self).

(** [self.restore()] *)
Definition restore (self : FetchInterceptor) (g : Global) : Global :=
  set_fetch g (this_originalFetch self).

Definition enableFetchBodyCapture (options : FetchInterceptorOptions) (g : Global)
  : Global * FetchInterceptor :=
  let g1 := match interceptorInstance g with
            | Some instance => restore instance g
            | None => g
            end in
  let '(g2, instance) := new_FetchInterceptor options g1 in
  ({| globalThis_fetch := globalThis_fetch g2;
      interceptorInstance := Some instance |}, instance).

Definition disableFetchBodyCapture (g : Global) : Global :=
  match interceptorInstance g with
  | Some instance =>
      {| globalThis_fetch := globalThis_fetch (restore instance g);
         interceptorInstance := None |}
  | None => g
  end.

(** How many interceptor wrappers a transport function is made of. *)
Fixpoint layers (f : Fetch) : nat :=
  match f with
  | Native _ => 0
  | Intercepting _ original => S (layers original)
  end.

(** What calling a transport function returns to the caller. *)
Fixpoint call_fetch {R : Runtime} (f : Fetch) : Transport :=
  match f with
  | Native transport => transport
  | Intercepting options original =>
      fun input init => snd (interceptFetch options (call_fetch original) input init)
  end.

(** A program using the module: it installs, uninstalls, and calls
    [restore()] on handles it was given. *)
Inductive Op : Type :=
| OpEnable (options : FetchInterceptorOptions)
| OpDisable
| OpRestore (handle : FetchInterceptor).

Record World : Type := {
  global : Global;
  handles : list FetchInterceptor    (* the handles returned so far *)
}.

Definition initial_world (transport : Transport) : World :=
  {| global := {| globalThis_fetch := Native transport;
                  interceptorInstance := None |};
     handles := [] |}.

Inductive step : World -> Op -> World -> Prop :=
| step_enable w options :
    step w (OpEnable options)
         {| global := fst (enableFetchBodyCapture options (global w));
            handles := snd (enableFetchBodyCapture options (global w)) :: handles w |}
| step_disable w :
    step w OpDisable
         {| global := disableFetchBodyCapture (global w); handles := handles w |}
| step_restore w handle :
    In handle (handles w) ->
    step w (OpRestore handle)
         {| global := restore handle (global w); handles := handles w |}.

Inductive reachable (transport : Transport) : World -> Prop :=
| reach_init : reachable transport (initial_world transport)
| reach_step w op w' :
    reachable transport w -> step w op w' -> reachable transport w'.

(* ================================================================== *)
(** ** A reference runtime

    A concrete [Runtime] on which the examples below are evaluated: a JSON
    reader and writer (no [\u] escapes; numbers as exact rationals), a
    base64 decoder for the standard alphabet, and URL and query-string
    splitting, all on strings of code units below 128. *)

Module Reference.

Definition dquote : ascii := "034"%char.
Definition backslash : ascii := "092"%char.

Definition syntax_error : Thrown :=
  ErrorObject "SyntaxError" "Unexpected token in JSON".

Fixpoint skip_ws (s : string) : string :=
  match s with
  | String c r =>
      let n := nat_of_ascii c in
      if (n =? 32) || (n =? 9) || (n =? 10) || (n =? 13) then skip_ws r else s
  | EmptyString => EmptyString
  end.

(** The characters of a string literal after its opening quote. *)
Fixpoint read_string (s : string) : option (string * string) :=
  match s with
  | EmptyString => None
  | String c r =>
      if Ascii.eqb c dquote then Some (EmptyString, r)
      else if Ascii.eqb c backslash then
        match r with
        | String e r' =>
            let unescaped :=
              if Ascii.eqb e dquote then Some dquote
              else if Ascii.eqb e backslash then Some backslash
              else if Ascii.eqb e "/" then Some "/"%char
              else if Ascii.eqb e "b" then Some "008"%char
              else if Ascii.eqb e "f" then Some "012"%char
              else if Ascii.eqb e "n" then Some "010"%char
              else if Ascii.eqb e "r" then Some "013"%char
              else if Ascii.eqb e "t" then Some "009"%char
              else None in
            match unescaped, read_string r' with
            | Some u, Some (text, rest) => Some (String u text, rest)
            | _, _ => None
            end
        | EmptyString => None
        end
      else if nat_of_ascii c <? 32 then None
      else match read_string r with
           | Some (text, rest) => Some (String c text, rest)
           | None => None
           end
  end.

(** A run of digits: their value, how many there are, and what follows. *)
Fixpoint read_nat (s : string) (value : Z) (count : nat) : Z * nat * string :=
  match s with
  | String c r =>
      match digit_of c with
      | Some d => read_nat r (10 * value + d)%Z (S count)
      | None => (value, count, s)
      end
  | EmptyString => (value, count, s)
  end.

Definition pow10 (n : nat) : positive := Pos.pow 10 (Pos.of_nat n).

Definition scale (q : Q) (negative : bool) (e : nat) : Q :=
  match e with
  | O => q
  | _ => if negative then Qmult q (1 # pow10 e)
         else Qmult q (inject_Z (Zpos (pow10 e)))
  end.

(** [-? int frac? exp?] *)
Definition read_number (s : string) : option (Q * string) :=
  let '(negative, s1) :=
    match s with
    | String "-"%char r => (true, r)
    | _ => (false, s)
    end in
  let '(int_part, n_int, s2) := read_nat s1 0%Z 0 in
  let leading_zero :=
    match s1 with String "0"%char _ => true | _ => false end in
  if (n_int =? 0) || (leading_zero && negb (n_int =? 1)) then None
  else
    let sign (q : Q) := if negative then Qopp q else q in
    let with_exp (q : Q) (s3 : string) : option (Q * string) :=
      match s3 with
      | String c r =>
          if Ascii.eqb c "e" || Ascii.eqb c "E" then
            let '(neg_e, r1) :=
              match r with
              | String "-"%char r' => (true, r')
              | String "+"%char r' => (false, r')
              | _ => (false, r)
              end in
            let '(e, n_e, r2) := read_nat r1 0%Z 0 in
            if n_e =? 0 then None
            else Some (Qred (scale q neg_e (Z.to_nat e)), r2)
          else Some (Qred q, s3)
      | EmptyString => Some (Qred q, s3)
      end in
    match s2 with
    | String "."%char r =>
        let '(frac, n_frac, s3) := read_nat r 0%Z 0 in
        if n_frac =? 0 then None
        else with_exp (sign (Qplus (inject_Z int_part) (frac # pow10 n_frac))) s3
    | _ => with_exp (sign (inject_Z int_part)) s2
    end.

Definition expect (word : string) (v : Value) (s : string) : option (Value * string) :=
  if startsWith word s
  then Some (v, substring (String.length word) (String.length s) s)
  else None.

Fixpoint parse_value (fuel : nat) (s : string) {struct fuel} : option (Value * string) :=
  match fuel with
  | O => None
  | S f =>
      match skip_ws s with
      | String "["%char r =>
          match skip_ws r with
          | String "]"%char r' => Some (VArr [], r')
          | _ => parse_elements f r []
          end
      | String "{"%char r =>
          match skip_ws r with
          | String "}"%char r' => Some (VObj [], r')
          | _ => parse_members f r []
          end
      | String "t"%char _ as t => expect "true" (VBool true) t
      | String "f"%char _ as t => expect "false" (VBool false) t
      | String "n"%char _ as t => expect "null" VNull t
      | String c r as t =>
          if Ascii.eqb c dquote then
            match read_string r with
            | Some (text, rest) => Some (VStr text, rest)
            | None => None
            end
          else match read_number t with
               | Some (q, rest) => Some (VNum q, rest)
               | None => None
               end
      | EmptyString => None
      end
  end
with parse_elements (fuel : nat) (s : string) (acc : list Value) {struct fuel}
  : option (Value * string) :=
  match fuel with
  | O => None
  | S f =>
      match parse_value f s with
      | Some (v, r) =>
          match skip_ws r with
          | String ","%char r' => parse_elements f r' (acc ++ [v])
          | String "]"%char r' => Some (VArr (acc ++ [v]), r')
          | _ => None
          end
      | None => None
      end
  end
with parse_members (fuel : nat) (s : string) (acc : list (string * Value)) {struct fuel}
  : option (Value * string) :=
  match fuel with
  | O => None
  | S f =>
      match skip_ws s with
      | String c r =>
          if Ascii.eqb c dquote then
            match read_string r with
            | Some (key, r1) =>
                match skip_ws r1 with
                | String ":"%char r2 =>
                    match parse_value f r2 with
                    | Some (v, r3) =>
                        match skip_ws r3 with
                        | String ","%char r4 => parse_members f r4 (obj_set acc key v)
                        | String "}"%char r4 => Some (VObj (obj_set acc key v), r4)
                        | _ => None
                        end
                    | None => None
                    end
                | _ => None
                end
            | None => None
            end
          else None
      | EmptyString => None
      end
  end.

Definition JSON_parse (text : string) : Completion Value :=
  match parse_value (2 * String.length text + 2) text with
  | Some (v, rest) =>
      match skip_ws rest with
      | EmptyString => Normal v
      | _ => Throw syntax_error
      end
  | None => Throw syntax_error
  end.

Definition Z_to_string (z : Z) : string :=
  NilEmpty.string_of_int (Z.to_int z).

(** The digits of [r / d] after the point, until the division is exact. *)
Fixpoint fraction_digits (fuel : nat) (r d : Z) : string :=
  match fuel with
  | O => EmptyString
  | S f =>
      if (r =? 0)%Z then EmptyString
      else (Z_to_string ((10 * r) / d) ++ fraction_digits f ((10 * r) mod d) d)%string
  end.

Definition Number_toString (q : Q) : string :=
  let n := Qnum (Qred q) in
  let d := Zpos (Qden (Qred q)) in
  if (d =? 1)%Z then Z_to_string n
  else ((if (n <? 0)%Z then "-" else "")
        ++ Z_to_string (Z.abs n / d) ++ "."
        ++ fraction_digits 20 (Z.abs n mod d) d)%string.

Fixpoint escape (s : string) : string :=
  match s with
  | EmptyString => EmptyString
  | String c r =>
      if Ascii.eqb c dquote || Ascii.eqb c backslash
      then String backslash (String c (escape r))
      else if Ascii.eqb c "010" then String backslash (String "n" (escape r))
      else String c (escape r)
  end.

Definition quoted (s : string) : string :=
  String dquote (escape s ++ String dquote EmptyString).

Definition join (l : list string) : string :=
  match l with
  | [] => EmptyString
  | x :: r => fold_left (fun acc y => (acc ++ "," ++ y)%string) r x
  end.

Fixpoint JSON_stringify (v : Value) : string :=
  match v with
  | VUndefined | VNull | VNaN => "null"
  | VBool true => "true"
  | VBool false => "false"
  | VNum q => Number_toString q
  | VStr s => quoted s
  | VArr items => ("[" ++ join (map JSON_stringify items) ++ "]")%string
  | VObj props =>
      ("{" ++ join ((fix members (l : list (string * Value)) : list string :=
                       match l with
                       | [] => []
                       | (k, x) :: r =>
                           (quoted k ++ ":" ++ JSON_stringify x)%string :: members r
                       end) props)
           ++ "}")%string
  | VHost _ => "{}"
  end.

(** The six bits a base64 character stands for. *)
Definition sextet (c : ascii) : option nat :=
  let n := nat_of_ascii c in
  if (65 <=? n) && (n <=? 90) then Some (n - 65)
  else if (97 <=? n) && (n <=? 122) then Some (n - 71)
  else if (48 <=? n) && (n <=? 57) then Some (n + 4)
  else if n =? 43 then Some 62
  else if n =? 47 then Some 63
  else None.

(** The sextets up to the first character outside the alphabet. *)
Fixpoint sextets (s : string) : list nat :=
  match s with
  | String c r =>
      match sextet c with
      | Some v => v :: sextets r
      | None => []
      end
  | EmptyString => []
  end.

Fixpoint octets (l : list nat) : list nat :=
  match l with
  | a :: b :: c :: d :: r =>
      (4 * a + b / 16) :: (16 * (b mod 16) + c / 4) :: (64 * (c mod 4) + d)
      :: octets r
  | [a; b; c] => [4 * a + b / 16; 16 * (b mod 16) + c / 4]
  | [a; b] => [4 * a + b / 16]
  | _ => []
  end.

Definition base64_to_utf8 (s : string) : string :=
  string_of_list_ascii (map ascii_of_nat (octets (sextets s))).

Definition TextDecoder_decode (bytes : list byte) : string :=
  string_of_list_ascii (map ascii_of_byte bytes).

(** Splits at the first occurrence of [sep]. *)
Fixpoint cut (sep : ascii) (s : string) : string * option string :=
  match s with
  | EmptyString => (EmptyString, None)
  | String c r =>
      if Ascii.eqb c sep then (EmptyString, Some r)
      else let '(a, b) := cut sep r in (String c a, b)
  end.

Fixpoint split_on (fuel : nat) (sep : ascii) (s : string) : list string :=
  match fuel with
  | O => [s]
  | S f =>
      match cut sep s with
      | (a, Some b) => a :: split_on f sep b
      | (a, None) => [a]
      end
  end.

Definition hex_digit (c : ascii) : option nat :=
  let n := nat_of_ascii c in
  if (48 <=? n) && (n <=? 57) then Some (n - 48)
  else if (65 <=? n) && (n <=? 70) then Some (n - 55)
  else if (97 <=? n) && (n <=? 102) then Some (n - 87)
  else None.

(** Form decoding: [+] is a space, [%XY] the code unit XY. *)
Fixpoint form_decode (s : string) : string :=
  match s with
  | EmptyString => EmptyString
  | String c r =>
      if Ascii.eqb c "+" then String " " (form_decode r)
      else if Ascii.eqb c "%" then
        match r with
        | String x (String y r') =>
            match hex_digit x, hex_digit y with
            | Some a, Some b => String (ascii_of_nat (16 * a + b)) (form_decode r')
            | _, _ => String c (form_decode r)
            end
        | _ => String c (form_decode r)
        end
      else String c (form_decode r)
  end.

Definition URLSearchParams_entries (text : string) : list (string * string) :=
  let text' := match text with String "?"%char r => r | _ => text end in
  map (fun piece =>
         let '(k, v) := cut "=" piece in
         (form_decode k, form_decode (or_default v EmptyString)))
      (filter (fun piece => negb (String.eqb piece ""))
              (split_on (String.length text') "&" text')).

(** [scheme://host/...]: the protocol is [scheme:], the host runs up to
    the next [/], [?] or [#]. *)
Definition URL_parse (url : string) : Completion (string * string) :=
  match cut ":" url with
  | (scheme, Some (String "/"%char (String "/"%char r))) =>
      if String.eqb scheme "" then Throw (ErrorObject "TypeError" "Invalid URL")
      else
        let host := fst (cut "#" (fst (cut "?" (fst (cut "/" r))))) in
        Normal ((toLowerCase scheme ++ ":")%string, toLowerCase host)
  | _ => Throw (ErrorObject "TypeError" "Invalid URL")
  end.

End Reference.

#[export] Instance reference_runtime : Runtime := {
  JSON_parse := Reference.JSON_parse;
  JSON_stringify := Reference.JSON_stringify;
  Number_toString := Reference.Number_toString;
  base64_to_utf8 := Reference.base64_to_utf8;
  TextDecoder_decode := Reference.TextDecoder_decode;
  URLSearchParams_entries := Reference.URLSearchParams_entries;
  URL_parse := Reference.URL_parse;
  getPackageVersion := "1.0.0"
}.


(* ================================================================== *)
(** ** Specification-level definitions and examples

    What the theorems below are stated with: the pure functions the code is
    shown to compute, the tagged capture outcome of the data model, and the
    concrete inputs on which the theorems are instantiated. *)

(** What the redactor leaves in one header. *)
Definition redact_entry (kv : string * string) : string * string :=
  (fst kv, if is_sensitive (toLowerCase (fst kv)) then REDACTED else snd kv).

(** The parsed claims of a token, null when there are none. *)
Definition claims_of {R : Runtime} (token : string) : Value :=
  match parseJWTClaims token with
  | Normal v => v
  | Throw _ => VNull
  end.

(** The claims after the loop has visited one header. *)
Definition header_claims {R : Runtime} (jwtClaims : Claims) (kv : string * string)
  : Claims :=
  let lowerKey := toLowerCase (fst kv) in
  if is_sensitive lowerKey && includes lowerKey "authorization"
     && negb (String.eqb (snd kv) "")
  then if truthy (claims_of (snd kv))
       then add_claims jwtClaims (claims_of (snd kv))
       else jwtClaims
  else jwtClaims.


(** Whether a string contains no dot. *)
Fixpoint dot_free (s : string) : bool :=
  match s with
  | EmptyString => true
  | String c r => negb (Ascii.eqb c ".") && dot_free r
  end.

(** The claims kept from the properties of a parsed payload. *)
Definition kept_claims {R : Runtime} (props : list (string * Value)) : Claims :=
  flat_map (fun kv => match scalar_to_String (snd kv) with
                      | Some text => [(("token." ++ fst kv)%string, text)]
                      | None => []
                      end) props.

(** The text the middle segment decodes to. *)
Definition decode_segment {R : Runtime} (payload : string) : string :=
  base64_to_utf8
    (replace_char "_" "/"
       (replace_char "-" "+"
          (payload ++ repeat_char "=" ((4 - String.length payload mod 4) mod 4))%string)).

(** A token of three segments whose middle one is the base64url text of
    the object with [sub = "u1"] and [admin = true]. *)
Definition example_token : string :=
  "Bearer aaa.eyJzdWIiOiJ1MSIsImFkbWluIjp0cnVlfQ.sss".

(** Whether a captured value has the shape of an error marker. *)
Definition is_error_marker (v : Value) : bool :=
  match v with
  | VObj props => match obj_get props "_error" with Some _ => true | None => false end
  | _ => false
  end.

(** What the lenient branches of the text parser return. *)
Definition json_or_text {R : Runtime} (text : string) : Value :=
  match JSON_parse text with
  | Normal v => v
  | Throw _ => VStr text
  end.

(** The configuration of an interceptor created without options. *)
Definition default_options : Options.t := with_defaults no_options.

(** Request headers that declare a JSON body. *)
Definition json_headers : option HeadersInit :=
  Some (HeaderRecord [("Content-Type", "application/json")]).

(** The capture outcome of the data model, as a tagged value. *)
Inductive CaptureOutcome : Type :=
| StructuredData (data : Value)
| RawText (text : string)
| BinarySkip (contentType : option string) (size : Value)
| Truncation (size : Value) (detail : string * Value)
| FormDataSkip
| StreamSkip
| ErrorMarker (what message : string)
| PassedThrough (body : Value).

(** The value that stands for a tagged outcome. *)
Definition render (o : CaptureOutcome) : Value :=
  match o with
  | StructuredData data => data
  | RawText text => VStr text
  | BinarySkip None size =>
      VObj [ ("_type", VStr "Binary"); ("_size", size);
             ("_note", VStr "Binary data not captured") ]
  | BinarySkip (Some contentType) size =>
      VObj [ ("_type", VStr "Binary"); ("_contentType", VStr contentType);
             ("_size", size); ("_note", VStr "Binary content not captured") ]
  | Truncation size detail =>
      VObj [ ("_truncated", VBool true); ("_size", size); detail ]
  | FormDataSkip =>
      VObj [ ("_type", VStr "FormData");
             ("_note", VStr "FormData not captured (likely contains files)") ]
  | StreamSkip =>
      VObj [ ("_type", VStr "ReadableStream"); ("_note", VStr "Stream not captured") ]
  | ErrorMarker what message =>
      VObj [ ("_error", VStr what); ("_message", VStr message) ]
  | PassedThrough body => body
  end.

(** JSON if the text parses, the raw text otherwise. *)
Definition structured_or_raw {R : Runtime} (text : string) : CaptureOutcome :=
  match JSON_parse text with
  | Normal data => StructuredData data
  | Throw _ => RawText text
  end.

(** The outcome of the shared text parser, by declared content type. *)
Definition text_outcome {R : Runtime} (text : string) (contentType : option string)
  : CaptureOutcome :=
  match contentType with
  | None => structured_or_raw text
  | Some "" => structured_or_raw text
  | Some contentType =>
      let lowerContentType := toLowerCase contentType in
      if includes lowerContentType "application/json" then
        structured_or_raw text
      else if includes lowerContentType "application/x-www-form-urlencoded" then
        StructuredData (VObj (of_strings (obj_of_entries (URLSearchParams_entries text))))
      else if includes lowerContentType "text/" then RawText text
      else structured_or_raw text
  end.

(** The outcome of a request capture, by the shape of the body. *)
Definition request_outcome {R : Runtime} (options : Options.t)
  (body : BodyInit) (headers : option HeadersInit)
  : CaptureOutcome :=
  match body with
  | BodyFormData => FormDataSkip
  | BodyURLSearchParams entries =>
      StructuredData (VObj (of_strings (obj_assign_all entries)))
  | BodyReadableStream => StreamSkip
  | BodyArrayBuffer bytes
  | BodyUint8Array bytes _ _ =>
      if isBinary bytes then BinarySkip None (VLength (length bytes))
      else text_outcome (TextDecoder_decode bytes) (getContentType headers)
  | BodyString s =>
      if (Options.maxBodySize options <? Z.of_nat (String.length s))%Z
      then Truncation (VLength (String.length s)) ("_preview", VStr (take 100 s))
      else text_outcome s (getContentType headers)
  | BodyOther kind => PassedThrough (VHost kind)
  end.

(** The outcome of a response capture. *)
Definition response_outcome {R : Runtime} (options : Options.t) (response : Response)
  : CaptureOutcome :=
  let contentType := or_else (headers_get response "content-type") "" in
  let contentLength :=
    parseInt10 (or_else (headers_get response "content-length") "0") in
  if exceeds contentLength (Options.maxBodySize options) then
    Truncation (number_value contentLength)
      ("_note", VStr ("Response too large (" ++ template_number contentLength
                      ++ " bytes)")%string)
  else if isBinaryContentType contentType then
    BinarySkip (Some contentType) (number_value contentLength)
  else
    match snd (Response_text response) with
    | Throw error =>
        ErrorMarker "Failed to capture response body" (failure_message error)
    | Normal text =>
        if (Options.maxBodySize options <? Z.of_nat (String.length text))%Z
        then Truncation (VLength (String.length text)) ("_preview", VStr (take 100 text))
        else text_outcome text (Some contentType)
    end.

(** A response whose body cannot be read. *)
Definition broken_response : Response :=
  {| status := 200%Z; statusText := "OK";
     response_headers := [("content-type", "application/json")];
     bodyUsed := false;
     body_text := Throw (ErrorObject "TypeError" "terminated") |}.

(** A response that declares JSON and carries something else. *)
Definition malformed_response : Response :=
  {| status := 200%Z; statusText := "OK";
     response_headers := [("content-type", "application/json")];
     bodyUsed := false;
     body_text := Normal "oops" |}.



(** The body of the specified example: 20000 characters. *)
Definition long_body : string := repeat_char "a" (Z.to_nat 20000).

(** [count] control bytes followed by printable ones, [len] bytes in all. *)
Definition sample_bytes (count len : nat) : list byte :=
  repeat x00 count ++ repeat x41 (len - count).

(** Whether the exact and the binary64 test agree on every sample of at
    most [n] bytes. *)
Definition doubles_agree_up_to (n : nat) : bool :=
  forallb (fun len =>
             forallb (fun count =>
                        Bool.eqb (isBinary_double (sample_bytes count len))
                                 (isBinary (sample_bytes count len)))
                     (seq 0 (S len)))
          (seq 0 (S n)).

(** Ten bytes of which four (40%) are control bytes. *)
Definition mostly_control : list byte :=
  [x00; x01; x02; x03; x41; x42; x43; x44; x45; x46].

(** Ten bytes of which two (20%) are control bytes; tab and newline do not
    count. *)
Definition mostly_text : list byte :=
  [x00; x01; x09; x0a; x41; x42; x43; x44; x45; x46].

(** The span after [setAttributes(attrs)]. *)
Definition add_attributes (sp : Span) (attrs : list (string * Value)) : Span :=
  {| span_name := span_name sp;
     attributes := attributes sp ++ attrs;
     span_status := span_status sp;
     end_count := end_count sp |}.

(** The span once its status is set and it is ended. *)
Definition finish (sp : Span) (st : SpanStatus) : Span :=
  {| span_name := span_name sp;
     attributes := attributes sp;
     span_status := Some st;
     end_count := S (end_count sp) |}.

(** The attribute a captured body becomes, if any. *)
Definition body_attributes {R : Runtime} (name : string) (bodyData : Value)
  : list (string * Value) :=
  if truthy bodyData then
    [(name, VStr match bodyData with
                 | VStr s => s
                 | _ => JSON_stringify bodyData
                 end)]
  else [].

(** The attributes a header object becomes: its redacted entries, then the
    extracted claims. *)
Definition header_attributes {R : Runtime} (side : string) (headers : Headers)
  : list (string * Value) :=
  flatten_headers side (map redact_entry headers)
  ++ of_strings (fold_left header_claims headers []).

(** The attributes set from the request headers. *)
Definition request_header_attributes {R : Runtime} (options : Options.t)
  (init : option RequestInit) : list (string * Value) :=
  match init with
  | Some {| init_headers := Some headers |} =>
      if Options.captureHeaders options
      then header_attributes "request" (normalizeHeaders headers)
      else []
  | _ => []
  end.

(** The attribute set from the request body, if any. *)
Definition request_body_attributes {R : Runtime} (options : Options.t)
  (init : option RequestInit) : list (string * Value) :=
  match init with
  | Some {| init_headers := headers; init_body := Some body |} =>
      if Options.captureRequestBody options && body_present body
      then body_attributes "request.body"
             (render (request_outcome options body headers))
      else []
  | _ => []
  end.

(** The status and header attributes set from a response. *)
Definition response_head_attributes {R : Runtime} (options : Options.t)
  (response : Response) : list (string * Value) :=
  [ ("http.status_code", VNum (inject_Z (status response)));
    ("http.status_text", VStr (statusText response)) ]
  ++ (if Options.captureHeaders options
      then header_attributes "response"
             (normalizeHeaders (HeadersObject (response_headers response)))
      else []).

(** The span a call starts with. *)
Definition initial_span {R : Runtime} (input : FetchInput) (init : option RequestInit)
  (location : string * string) : Span :=
  {| span_name := ("fetch " ++ request_method init)%string;
     attributes :=
       [ ("http.method", VStr (request_method init));
         ("http.url", VStr (input_url input));
         ("http.scheme", VStr (drop_last (fst location)));
         ("http.host", VStr (snd location));
         ("kubiks.otel.source", VStr "otel-nextjs");
         ("kubiks.otel.version", VStr getPackageVersion);
         ("kubiks.otel.instrumentation", VStr "fetch-interceptor") ];
     span_status := None;
     end_count := 0 |}.

(** The URL of the example calls. *)
Definition example_input : FetchInput := InputString "https://api.example/x".

(** A transport that always raises. *)
Definition failing_transport : Transport :=
  fun _ _ => Throw (ErrorObject "TypeError" "fetch failed").

(** A fresh response carrying [text] declared as JSON. *)
Definition json_response (text : string) : Response :=
  {| status := 200%Z; statusText := "OK";
     response_headers := [("content-type", "application/json")];
     bodyUsed := false;
     body_text := Normal text |}.

(** A transport that always answers with [json_response text]. *)
Definition answering_transport (text : string) : Transport :=
  fun _ _ => Normal (json_response text).

(** Names of claim attributes. *)
Definition token_named (name : string) : Prop := startsWith "token." name = true.

(** What the span records after the transport has been called. *)
Definition response_attributes {R : Runtime} (options : Options.t)
  (originalFetch : Transport) (input : FetchInput) (init : option RequestInit)
  : list (string * Value) :=
  match originalFetch input init with
  | Throw _ => []
  | Normal response =>
      response_head_attributes options response
      ++ (if Options.captureResponseBody options then
            match Response_clone response with
            | Normal responseClone =>
                body_attributes "response.body"
                  (render (response_outcome options responseClone))
            | Throw _ => []
            end
          else [])
  end.


(** The singleton invariant of the states a program can reach. *)
Definition singleton_invariant (transport : Transport) (w : World) : Prop :=
  (forall handle, In handle (handles w) ->
                  this_originalFetch handle = Native transport)
  /\ (forall instance, interceptorInstance (global w) = Some instance ->
                       In instance (handles w))
  /\ (globalThis_fetch (global w) = Native transport
      \/ exists options,
           globalThis_fetch (global w) = Intercepting options (Native transport))
  /\ (interceptorInstance (global w) = None ->
      globalThis_fetch (global w) = Native transport).

(** The state after two installations in a row. *)
Definition installed_twice : World :=
  let w1 :=
    {| global := fst (enableFetchBodyCapture no_options
                        (global (initial_world failing_transport)));
       handles := [snd (enableFetchBodyCapture no_options
                          (global (initial_world failing_transport)))] |} in
  {| global := fst (enableFetchBodyCapture no_options (global w1));
     handles := snd (enableFetchBodyCapture no_options (global w1)) :: handles w1 |}.

(** The first of two handles installed one after the other. *)
Definition first_handle : FetchInterceptor :=
  snd (enableFetchBodyCapture no_options (global (initial_world failing_transport))).

(** The entries a [HeadersInit] value is read through, whatever its form:
    what [forEach] presents for a [Headers] object, the pairs of an array,
    the [Object.entries] of a record. *)
Definition header_entries (headers : HeadersInit) : list (string * string) :=
  match headers with
  | HeadersObject entries => entries
  | HeaderPairs pairs => pairs
  | HeaderRecord props => props
  end.

(** The entries whose assignment creates a property: every name but
    [__proto__]. *)
Definition own_entries (entries : list (string * string)) : list (string * string) :=
  filter (fun kv => negb (String.eqb (fst kv) "__proto__")) entries.

(** Whether the request capture converts the body of a call (to text, to
    parsed data or to a marker), as opposed to handing back as it is a
    value of a kind it does not recognise. *)
Definition request_body_converted (init : option RequestInit) : bool :=
  match init with
  | Some {| init_body := Some (BodyOther _) |} => false
  | _ => true
  end.

(** How many dots a string contains. *)
Fixpoint count_dots (s : string) : nat :=
  match s with
  | EmptyString => 0
  | String c r => (if Ascii.eqb c "." then 1 else 0) + count_dots r
  end.

(** Whether a character occurs in a string. *)
Fixpoint contains_char (c : ascii) (s : string) : bool :=
  match s with
  | EmptyString => false
  | String d r => Ascii.eqb d c || contains_char c r
  end.

(** What [parseJWTClaims] hands to the base64 decoder for a middle segment:
    the segment padded with [=] and taken to the standard alphabet. *)
Definition standard_base64 (payload : string) : string :=
  replace_char "_" "/"
    (replace_char "-" "+"
       (payload ++ repeat_char "=" ((4 - String.length payload mod 4) mod 4))%string).

(** A response without a declared length. *)
Definition chunked_response (text : string) : Response :=
  {| status := 200%Z; statusText := "OK";
     response_headers := [("content-type", "text/plain")];
     bodyUsed := false;
     body_text := Normal text |}.

(** An interceptor configured with [maxBodySize] 3. *)
Definition tiny_options : Options.t :=
  with_defaults {| opt_captureRequestBody := None; opt_captureResponseBody := None;
                   opt_captureHeaders := None; opt_maxBodySize := Some 3%Z |}.

(** The bytes of [hello], a newline and a tab. *)
Definition text_bytes : list byte := [x68; x65; x6c; x6c; x6f; x0a; x09].

(** A call carrying a bearer token and an API key. *)
Definition token_request : RequestInit :=
  {| init_method := Some "POST";
     init_headers :=
       Some (HeaderRecord [ ("Authorization", example_token);
                            ("X-Api-Key", "k-123");
                            ("Content-Type", "text/plain") ]);
     init_body := Some (BodyString "ping") |}.

(** The same, as the optional second argument of a call. *)
Definition token_init : option RequestInit := Some token_request.

(** An interceptor configured not to capture headers. *)
Definition no_header_options : Options.t :=
  with_defaults {| opt_captureRequestBody := None; opt_captureResponseBody := None;
                   opt_captureHeaders := Some false; opt_maxBodySize := None |}.

(* ================================================================== *)
(** * Properties *)

(** ** Strings *)



(** ** Objects *)

Lemma obj_set_fresh {V} (o : list (string * V)) k v :
  ~ In k (obj_keys o) -> obj_set o k v = o ++ [(k, v)].
Proof.
  induction o as [|[k' v'] o IH]; simpl; intros H; [reflexivity|].
  destruct (String.eqb_spec k' k) as [->|Hne].
  - exfalso. apply H. now left.
  - rewrite IH; [reflexivity|]. intros Hin. apply H. now right.
Qed.

Lemma obj_of_entries_app {V} (l acc : list (string * V)) :
  NoDup (obj_keys (acc ++ l)) ->
  fold_left (fun a kv => obj_set a (fst kv) (snd kv)) l acc = acc ++ l.
Proof.
  revert acc; induction l as [|[k v] l IH]; intros acc H; simpl.
  - now rewrite app_nil_r.
  - rewrite obj_set_fresh.
    + rewrite IH; rewrite <- app_assoc; [reflexivity | exact H].
    + unfold obj_keys in H. rewrite map_app in H. simpl in H.
      apply NoDup_remove_2 in H. intros Hin. apply H.
      apply in_or_app. now left.
Qed.

Lemma obj_of_entries_id {V} (o : list (string * V)) :
  NoDup (obj_keys o) -> obj_of_entries o = o.
Proof. intros H. unfold obj_of_entries. now rewrite obj_of_entries_app. Qed.

Lemma obj_get_app_fresh {V} (o1 o2 : list (string * V)) k :
  ~ In k (obj_keys o1) -> obj_get (o1 ++ o2) k = obj_get o2 k.
Proof.
  induction o1 as [|[k' v'] o1 IH]; simpl; intros H; [reflexivity|].
  destruct (String.eqb_spec k' k) as [->|Hne].
  - exfalso. apply H. now left.
  - apply IH. intros Hin. apply H. now right.
Qed.

Lemma obj_set_app_fresh {V} (o1 o2 : list (string * V)) k v :
  ~ In k (obj_keys o1) -> obj_set (o1 ++ o2) k v = o1 ++ obj_set o2 k v.
Proof.
  induction o1 as [|[k' v'] o1 IH]; simpl; intros H; [reflexivity|].
  destruct (String.eqb_spec k' k) as [->|Hne].
  - exfalso. apply H. now left.
  - rewrite IH; [reflexivity|]. intros Hin. apply H. now right.
Qed.


Lemma obj_set_keys_present {V} (o : list (string * V)) k v :
  In k (obj_keys o) -> obj_keys (obj_set o k v) = obj_keys o.
Proof.
  induction o as [|[k' v'] o IH]; simpl; intros H; [contradiction|].
  destruct (String.eqb_spec k' k) as [->|Hne]; [reflexivity|].
  simpl. f_equal. apply IH. destruct H as [H|H]; [contradiction|exact H].
Qed.

Lemma obj_set_NoDup {V} (o : list (string * V)) k v :
  NoDup (obj_keys o) -> NoDup (obj_keys (obj_set o k v)).
Proof.
  intros H. destruct (in_dec string_dec k (obj_keys o)) as [Hin|Hout].
  - now rewrite obj_set_keys_present.
  - rewrite obj_set_fresh by exact Hout. unfold obj_keys in *.
    rewrite map_app. simpl. apply NoDup_app.
    + exact H.
    + constructor; [intros []|constructor].
    + intros x Hx [<-|[]]. contradiction.
Qed.

Lemma fold_obj_set_NoDup {V A} (f : A -> string) (g : A -> V) (l : list A) :
  forall acc, NoDup (obj_keys acc) ->
  NoDup (obj_keys (fold_left (fun o x => obj_set o (f x) (g x)) l acc)).
Proof.
  induction l as [|x l IH]; intros acc H; simpl; [exact H|].
  apply IH. now apply obj_set_NoDup.
Qed.

Lemma fold_obj_assign_filter {A} (f g : A -> string) (l : list A) :
  forall acc,
  fold_left (fun o x => obj_assign o (f x) (g x)) l acc
  = fold_left (fun o x => obj_set o (f x) (g x))
              (filter (fun x => negb (String.eqb (f x) "__proto__")) l) acc.
Proof.
  induction l as [|x l IH]; intros acc; simpl; [reflexivity|].
  unfold obj_assign at 2.
  destruct (String.eqb (f x) "__proto__"); simpl; apply IH.
Qed.

Lemma normalizeHeaders_NoDup headers : NoDup (obj_keys (normalizeHeaders headers)).
Proof.
  unfold normalizeHeaders. rewrite fold_obj_assign_filter.
  apply (fold_obj_set_NoDup (fun kv => toLowerCase (fst kv)) snd). constructor.
Qed.

(** ** Header redactor *)

Lemma redact_entry_keys (o : Headers) :
  obj_keys (map redact_entry o) = obj_keys o.
Proof.
  unfold obj_keys. rewrite map_map. apply map_ext. now intros [k v].
Qed.

Section RedactorFacts.
Context {R : Runtime}.

Lemma parseJWTClaims_returns token :
  exists v, parseJWTClaims token = Normal v.
Proof.
  unfold parseJWTClaims, try_catch.
  match goal with |- context [match ?c with Normal _ => _ | Throw _ => _ end] =>
    destruct c end; eauto.
Qed.

Lemma parseJWTClaims_claims_of token :
  parseJWTClaims token = Normal (claims_of token).
Proof.
  unfold claims_of. destruct (parseJWTClaims_returns token) as [v ->]. reflexivity.
Qed.

Lemma redact_step_spec ref s c k v :
  obj_get (cell s ref) k = Some v ->
  redact_step ref (s, c) k =
  Normal (if is_sensitive (toLowerCase k) then write_prop s ref k REDACTED else s,
          header_claims c (k, v)).
Proof.
  intros Hget. unfold redact_step, header_claims. simpl fst; simpl snd.
  destruct (is_sensitive (toLowerCase k)); [|reflexivity].
  rewrite Hget. simpl andb.
  destruct (includes (toLowerCase k) "authorization" && negb (String.eqb v ""));
    [|reflexivity].
  rewrite parseJWTClaims_claims_of. simpl.
  destruct (truthy (claims_of v)); reflexivity.
Qed.

Lemma redact_loop todo : forall done s c ref,
  NoDup (obj_keys (done ++ todo)) ->
  cell s ref = map redact_entry done ++ todo ->
  exists s',
    foldC (redact_step ref) (obj_keys todo) (s, c)
    = Normal (s', fold_left header_claims todo c)
    /\ cell s' ref = map redact_entry (done ++ todo)
    /\ (forall a, a <> ref -> cell s' a = cell s a)
    /\ next s' = next s.
Proof.
  induction todo as [|[k v] todo IH]; intros done s c ref Hnd Hcell.
  - exists s. simpl. rewrite app_nil_r in *. auto.
  - assert (Hfresh : ~ In k (obj_keys (map redact_entry done))).
    { rewrite redact_entry_keys. unfold obj_keys in *. rewrite map_app in Hnd.
      simpl in Hnd. apply NoDup_remove_2 in Hnd. intros Hin. apply Hnd.
      apply in_or_app. now left. }
    assert (Hget : obj_get (cell s ref) k = Some v).
    { rewrite Hcell, obj_get_app_fresh by exact Hfresh.
      simpl. now rewrite String.eqb_refl. }
    change (obj_keys ((k, v) :: todo)) with (k :: obj_keys todo).
    cbn [foldC]. rewrite (redact_step_spec _ _ _ _ _ Hget).
    cbn [bindC fold_left].
    set (s1 := if is_sensitive (toLowerCase k)
               then write_prop s ref k REDACTED else s).
    assert (Hcell1 : cell s1 ref = map redact_entry (done ++ [(k, v)]) ++ todo).
    { subst s1. rewrite map_app. simpl map. unfold redact_entry at 2. simpl.
      destruct (is_sensitive (toLowerCase k)).
      - simpl. rewrite Nat.eqb_refl, Hcell, obj_set_app_fresh by exact Hfresh.
        simpl. rewrite String.eqb_refl. now rewrite <- app_assoc.
      - rewrite Hcell. now rewrite <- app_assoc. }
    destruct (IH (done ++ [(k, v)]) s1 (header_claims c (k, v)) ref) as
      (s' & Hrun & Hres & Hother & Hnext).
    { now rewrite <- app_assoc. }
    { exact Hcell1. }
    exists s'. repeat split.
    + exact Hrun.
    + rewrite Hres. now rewrite <- app_assoc.
    + intros a Ha. rewrite (Hother a Ha). subst s1.
      destruct (is_sensitive (toLowerCase k)); [|reflexivity].
      simpl. apply Nat.eqb_neq in Ha. now rewrite Ha.
    + rewrite Hnext. subst s1. now destruct (is_sensitive (toLowerCase k)).
Qed.

(** The whole call, on a well-formed header object. *)
Lemma redactSensitiveHeaders_run s headers :
  NoDup (obj_keys (cell s headers)) ->
  exists s',
    redactSensitiveHeaders s headers
    = Normal (s', (next s, fold_left header_claims (cell s headers) []))
    /\ cell s' (next s) = map redact_entry (cell s headers)
    /\ (forall a, a <> next s -> cell s' a = cell s a).
Proof.
  intros Hnd. unfold redactSensitiveHeaders, alloc.
  rewrite (obj_of_entries_id _ Hnd).
  set (s0 := {| cell := _; next := _ |}).
  assert (Hcell0 : cell s0 (next s) = map redact_entry [] ++ cell s headers).
  { subst s0. simpl. now rewrite Nat.eqb_refl. }
  destruct (redact_loop (cell s headers) [] s0 [] (next s) Hnd Hcell0)
    as (s' & Hrun & Hres & Hother & _).
  assert (Hcell0' : cell s0 (next s) = cell s headers) by exact Hcell0.
  exists s'. simpl app in Hres. rewrite Hcell0', Hrun. simpl.
  repeat split; auto.
  intros a Ha. rewrite (Hother a Ha). subst s0. simpl.
  apply Nat.eqb_neq in Ha. now rewrite Ha.
Qed.

Lemma redact_headers_spec (headers : Headers) :
  NoDup (obj_keys headers) ->
  redact_headers headers
  = Normal (map redact_entry headers, fold_left header_claims headers []).
Proof.
  intros Hnd. unfold redact_headers.
  destruct (alloc empty_store headers) as [s ref] eqn:Halloc.
  unfold alloc, empty_store in Halloc. simpl in Halloc.
  inversion Halloc as [[Hs Href]]. clear Halloc.
  assert (Hc : cell s 0 = headers) by (now subst s).
  assert (Hn : next s = 1) by (now subst s).
  destruct (redactSensitiveHeaders_run s 0) as (s' & Hrun & Hres & _).
  { now rewrite Hc. }
  rewrite Hs. rewrite Hrun. simpl. rewrite Hres, Hc. reflexivity.
Qed.

End RedactorFacts.

(** ** C3: redaction keeps the keys, replaces exactly the sensitive values,
       and leaves its argument untouched *)



(** ** Token claim parser *)

Lemma string_app_nil_r (s : string) : (s ++ "")%string = s.
Proof. induction s; simpl; congruence. Qed.

Lemma string_app_assoc (a b c : string) :
  ((a ++ b) ++ c)%string = (a ++ (b ++ c))%string.
Proof. induction a; simpl; congruence. Qed.

Lemma dot_free_app a b : dot_free (a ++ b) = dot_free a && dot_free b.
Proof. induction a as [|c a IH]; simpl; [reflexivity|]. now rewrite IH, andb_assoc. Qed.

Lemma split_dot_nonempty s : split_dot s <> [].
Proof.
  destruct s as [|c s]; simpl; [discriminate|].
  destruct (Ascii.eqb c "."); [discriminate|].
  destruct (split_dot s); discriminate.
Qed.

(** A prefix without dots only lengthens the first segment. *)
Lemma split_dot_prefix a s :
  dot_free a = true ->
  split_dot (a ++ s) = (a ++ hd "" (split_dot s))%string :: tl (split_dot s).
Proof.
  induction a as [|c a IH]; simpl; intros H.
  - destruct (split_dot s) eqn:E; [now apply split_dot_nonempty in E|reflexivity].
  - apply andb_true_iff in H as [Hc Ha]. apply negb_true_iff in Hc.
    rewrite Hc, (IH Ha). reflexivity.
Qed.

Lemma split_dot_three a p c :
  dot_free a = true -> dot_free p = true -> dot_free c = true ->
  split_dot (a ++ "." ++ p ++ "." ++ c) = [a; p; c].
Proof.
  intros Ha Hp Hc.
  rewrite (split_dot_prefix a _ Ha). simpl.
  rewrite (split_dot_prefix p _ Hp). simpl.
  rewrite <- (string_app_nil_r c) at 1.
  rewrite (split_dot_prefix c _ Hc). simpl.
  now rewrite !string_app_nil_r.
Qed.

Lemma dot_free_toLowerCase s : dot_free (toLowerCase s) = true -> dot_free s = true.
Proof.
  induction s as [|c s IH]; simpl; [reflexivity|]. intros H.
  apply andb_true_iff in H as [Hc Hs]. rewrite (IH Hs), andb_true_r.
  destruct (Ascii.eqb_spec c ".") as [->|]; [discriminate Hc|reflexivity].
Qed.

Lemma match_ignore_case_split pat : forall s r,
  match_ignore_case pat s = Some r ->
  exists pre, s = (pre ++ r)%string /\ toLowerCase pre = pat.
Proof.
  induction pat as [|a pat IH]; intros s r H.
  - destruct s; inversion H; subst; now exists "".
  - destruct s as [|b s]; [discriminate|]. simpl in H.
    destruct (Ascii.eqb a (lower_ascii b) && (nat_of_ascii b <? 128)) eqn:E;
      [|discriminate].
    apply andb_true_iff in E as [E _]. apply Ascii.eqb_eq in E.
    destruct (IH _ _ H) as (pre & -> & Hpre).
    exists (String b pre). simpl. now rewrite Hpre, E.
Qed.

Lemma drop_spaces_split r :
  exists sp, r = (sp ++ drop_spaces r)%string /\ dot_free sp = true.
Proof.
  induction r as [|c r IH]; simpl.
  - now exists "".
  - destruct (is_space c) eqn:E.
    + destruct IH as (sp & Hr & Hsp). exists (String c sp). simpl.
      split; [now rewrite <- Hr|].
      rewrite Hsp, andb_true_r.
      destruct (Ascii.eqb_spec c ".") as [->|]; [discriminate E|reflexivity].
    + now exists "".
Qed.

(** What the prefix removal takes away never contains a dot. *)
Lemma strip_bearer_split token :
  exists pre, token = (pre ++ strip_bearer token)%string /\ dot_free pre = true.
Proof.
  unfold strip_bearer.
  destruct (match_ignore_case "bearer" token) as [[|c r]|] eqn:E;
    try (now exists "").
  destruct (is_space c) eqn:Hc; [|now exists ""].
  apply match_ignore_case_split in E as (pre & -> & Hpre).
  destruct (drop_spaces_split r) as (sp & Hr & Hsp).
  exists (pre ++ String c sp)%string. split.
  - rewrite string_app_assoc. simpl. now rewrite <- Hr.
  - rewrite dot_free_app. simpl. rewrite Hsp, andb_true_r.
    rewrite (dot_free_toLowerCase pre) by (now rewrite Hpre). simpl.
    destruct (Ascii.eqb_spec c ".") as [->|]; [discriminate Hc|reflexivity].
Qed.

(** So the segments after the first are those of the token itself. *)
Lemma split_dot_strip_bearer token :
  tl (split_dot (strip_bearer token)) = tl (split_dot token)
  /\ length (split_dot (strip_bearer token)) = length (split_dot token).
Proof.
  destruct (strip_bearer_split token) as (pre & Htok & Hpre).
  rewrite Htok at 2 4. rewrite (split_dot_prefix pre _ Hpre).
  destruct (split_dot (strip_bearer token)) eqn:E;
    [now apply split_dot_nonempty in E|].
  now simpl.
Qed.

Section ClaimParserFacts.
Context {R : Runtime}.

Lemma parseJWTClaims_segments token a p c :
  split_dot (strip_bearer token) = [a; p; c] ->
  parseJWTClaims token
  = try_catch (JSON_parse (decode_segment p)) (fun _ => Normal VNull).
Proof. intros H. unfold parseJWTClaims. rewrite H. reflexivity. Qed.

Lemma parseJWTClaims_wrong_arity token :
  length (split_dot (strip_bearer token)) <> 3 ->
  parseJWTClaims token = Normal VNull.
Proof.
  intros H. unfold parseJWTClaims. apply Nat.eqb_neq in H. now rewrite H.
Qed.

Lemma kept_claims_keys props k :
  In k (obj_keys (kept_claims props)) ->
  exists key, In key (obj_keys props) /\ k = ("token." ++ key)%string.
Proof.
  unfold obj_keys, kept_claims. intros H.
  apply in_map_iff in H as ([k' text] & <- & H).
  apply in_flat_map in H as ([key v] & Hin & H). simpl in H.
  destruct (scalar_to_String v); [|contradiction].
  destruct H as [H|[]]. inversion H; subst.
  exists key. split; [|reflexivity].
  change (In (fst (key, v)) (map fst props)). now apply in_map.
Qed.

Lemma add_claims_fold props : forall acc,
  NoDup (obj_keys props) ->
  (forall key, In key (obj_keys props) -> ~ In ("token." ++ key)%string (obj_keys acc)) ->
  fold_left
    (fun acc entry =>
       match scalar_to_String (snd entry) with
       | Some text => obj_set acc ("token." ++ fst entry)%string text
       | None => acc
       end) props acc
  = acc ++ kept_claims props.
Proof.
  induction props as [|[key v] props IH]; intros acc Hnd Hfresh.
  - simpl. now rewrite app_nil_r.
  - inversion Hnd as [|? ? Hnotin Hnd']; subst.
    cbn [fold_left fst snd kept_claims flat_map].
    destruct (scalar_to_String v) as [text|].
    + rewrite obj_set_fresh by (apply Hfresh; now left).
      rewrite IH; [now rewrite <- app_assoc | exact Hnd' |].
      intros key' Hin Hbad. unfold obj_keys in Hbad. rewrite map_app in Hbad.
      apply in_app_or in Hbad as [Hbad|Hbad].
      * apply (Hfresh key'); [now right | exact Hbad].
      * simpl in Hbad. destruct Hbad as [Hbad|[]].
        inversion Hbad; subst. contradiction.
    + rewrite IH; [reflexivity | exact Hnd' |].
      intros key' Hin. apply Hfresh. now right.
Qed.

Lemma add_claims_object props :
  NoDup (obj_keys props) -> add_claims [] (VObj props) = kept_claims props.
Proof.
  intros H. unfold add_claims. simpl Object_entries.
  now rewrite add_claims_fold.
Qed.

End ClaimParserFacts.

(** ** C4: the token claim parser *)

(** C4.  [parseJWTClaims] removes a leading [Bearer] prefix (any case, with
    the white space after it), splits at the dots and returns null unless
    there are exactly three segments (which is so exactly when the token
    itself has three); it always returns, and returns null when the decoded
    middle segment does not parse.  For a token
    [Bearer <header>.<payload>.<signature>] whose payload the runtime decodes
    to the object with [sub = "u1"] and [admin = true], redacting an
    [Authorization] header with that token extracts [token.sub = "u1"] and
    [token.admin = "true"].  From a parsed object exactly the string, number
    and boolean claims are kept, each as [String(value)] under [token.<name>]. *)
Theorem parseJWTClaims_contract {R : Runtime} (token : string) :
  (forall rest, strip_bearer ("Bearer " ++ rest) = drop_spaces rest
                /\ strip_bearer ("bearer " ++ rest) = drop_spaces rest
                /\ strip_bearer ("BEARER " ++ rest) = drop_spaces rest)
  /\ (match_ignore_case "bearer" token = None -> strip_bearer token = token)
  /\ (length (split_dot (strip_bearer token)) = length (split_dot token))
  /\ (length (split_dot (strip_bearer token)) <> 3 ->
      parseJWTClaims token = Normal VNull)
  /\ (exists v, parseJWTClaims token = Normal v)
  /\ (forall a p c e,
        split_dot (strip_bearer token) = [a; p; c] ->
        JSON_parse (decode_segment p) = Throw e ->
        parseJWTClaims token = Normal VNull)
  /\ (forall header payload signature,
        dot_free header = true -> dot_free payload = true ->
        dot_free signature = true ->
        token = ("Bearer " ++ header ++ "." ++ payload ++ "." ++ signature)%string ->
        JSON_parse (decode_segment payload)
        = Normal (VObj [("sub", VStr "u1"); ("admin", VBool true)]) ->
        parseJWTClaims token
        = Normal (VObj [("sub", VStr "u1"); ("admin", VBool true)])
        /\ exists redactedHeaders jwtClaims,
             redact_headers [("Authorization", token)]
             = Normal (redactedHeaders, jwtClaims)
             /\ obj_get jwtClaims "token.sub" = Some "u1"
             /\ obj_get jwtClaims "token.admin" = Some "true")
  /\ (forall props name text,
        NoDup (obj_keys props) ->
        (In (name, text) (add_claims [] (VObj props)) <->
         exists key value,
           In (key, value) props /\ name = ("token." ++ key)%string
           /\ match value with
              | VStr s => text = s
              | VNum q => text = Number_toString q
              | VNaN => text = "NaN"
              | VBool b => text = if b then "true" else "false"
              | _ => False
              end)).
Proof.
  split; [intros rest; repeat split|].
  split; [intros Hno; unfold strip_bearer; now rewrite Hno|].
  split; [apply split_dot_strip_bearer|].
  split; [apply parseJWTClaims_wrong_arity|].
  split; [apply parseJWTClaims_returns|].
  split; [|split].
  - intros a p c e Hparts Hfail.
    rewrite (parseJWTClaims_segments _ _ _ _ Hparts), Hfail. reflexivity.
  - intros header payload signature Hh Hp Hs -> Hhost.
    assert (Hparts : exists a, split_dot (strip_bearer
               ("Bearer " ++ header ++ "." ++ payload ++ "." ++ signature))
             = [a; payload; signature]).
    { destruct (split_dot_strip_bearer
                  ("Bearer " ++ header ++ "." ++ payload ++ "." ++ signature))
        as [Htl _].
      rewrite <- string_app_assoc in Htl.
      rewrite (split_dot_three ("Bearer " ++ header) payload signature) in Htl;
        [| rewrite dot_free_app; now rewrite Hh | exact Hp | exact Hs].
      rewrite string_app_assoc in Htl.
      destruct (split_dot (strip_bearer _)) as [|a t] eqn:E;
        [now apply split_dot_nonempty in E|].
      simpl in Htl. subst t. now exists a. }
    destruct Hparts as [a Hparts].
    assert (Hparse : parseJWTClaims
                       ("Bearer " ++ header ++ "." ++ payload ++ "." ++ signature)
                     = Normal (VObj [("sub", VStr "u1"); ("admin", VBool true)])).
    { rewrite (parseJWTClaims_segments _ _ _ _ Hparts), Hhost. reflexivity. }
    split; [exact Hparse|].
    rewrite redact_headers_spec by (repeat constructor; simpl; tauto).
    eexists _, _. split; [reflexivity|].
    cbn [fold_left]. unfold header_claims, claims_of. cbn [fst snd].
    rewrite Hparse.
    replace (is_sensitive (toLowerCase "Authorization")) with true by reflexivity.
    replace (includes (toLowerCase "Authorization") "authorization")
      with true by reflexivity.
    simpl. split; reflexivity.
  - intros props name text Hnd. rewrite (add_claims_object props Hnd).
    unfold kept_claims. rewrite in_flat_map. split.
    + intros ([key value] & Hin & H). simpl in H. exists key, value.
      split; [exact Hin|].
      destruct value as [| |[|]| | | | | |]; simpl in H;
        try contradiction; destruct H as [H|[]]; inversion H; subst; auto.
    + intros (key & value & Hin & -> & H). exists (key, value).
      split; [exact Hin|]. simpl.
      destruct value as [| |[|]| | | | | |]; simpl; try contradiction;
        subst; now left.
Qed.

Lemma parseJWTClaims_contract_witness :
  strip_bearer "a.b.c" = "a.b.c"
  /\ @parseJWTClaims reference_runtime "only.two" = Normal VNull
  /\ @parseJWTClaims reference_runtime "a.!!!.c" = Normal VNull
  /\ (@parseJWTClaims reference_runtime example_token
      = Normal (VObj [("sub", VStr "u1"); ("admin", VBool true)])
      /\ exists redactedHeaders jwtClaims,
           @redact_headers reference_runtime [("Authorization", example_token)]
           = Normal (redactedHeaders, jwtClaims)
           /\ obj_get jwtClaims "token.sub" = Some "u1"
           /\ obj_get jwtClaims "token.admin" = Some "true")
  /\ (In ("token.iat", "5")
         (@add_claims reference_runtime []
            (VObj [("iat", VNum (inject_Z 5)); ("aud", VArr [])]))).
Proof.
  destruct (@parseJWTClaims_contract reference_runtime "a.b.c")
    as (_ & Hplain & _).
  destruct (@parseJWTClaims_contract reference_runtime "only.two")
    as (_ & _ & _ & Harity & _).
  destruct (@parseJWTClaims_contract reference_runtime "a.!!!.c")
    as (_ & _ & _ & _ & _ & Hfail & _).
  destruct (@parseJWTClaims_contract reference_runtime example_token)
    as (_ & _ & _ & _ & _ & _ & Hexample & _).
  destruct (@parseJWTClaims_contract reference_runtime "")
    as (_ & _ & _ & _ & _ & _ & _ & Hkept).
  split; [apply Hplain; reflexivity|].
  split; [apply Harity; vm_compute; discriminate|].
  split; [apply (Hfail "a" "!!!" "c" Reference.syntax_error); vm_compute; reflexivity|].
  split.
  - apply (Hexample "aaa" "eyJzdWIiOiJ1MSIsImFkbWluIjp0cnVlfQ" "sss");
      vm_compute; reflexivity.
  - apply Hkept.
    + simpl. repeat constructor; simpl; intuition discriminate.
    + exists "iat", (VNum (inject_Z 5)). split; [now left|].
      split; vm_compute; reflexivity.
Defined.

(** ** Body classifier and decoder *)

Lemma take_substring n s : take n s = substring 0 n s.
Proof.
  revert s; induction n as [|n IH]; intros [|c s]; simpl; try reflexivity.
  now rewrite IH.
Qed.

Section CaptureFacts.
Context {R : Runtime}.
Variable options : Options.t.

Lemma parse_or_text_returns text : parse_or_text text = Normal (json_or_text text).
Proof.
  unfold parse_or_text, json_or_text, try_catch. now destruct (JSON_parse text).
Qed.

Lemma parseBodyText_returns text contentType :
  exists v, parseBodyText text contentType = Normal v.
Proof.
  unfold parseBodyText, try_catch.
  match goal with |- context [match ?c with Normal _ => _ | Throw _ => _ end] =>
    destruct c end; eauto.
Qed.

(** A body declared as JSON that does not parse comes back as its text. *)
Lemma parseBodyText_declared_json_failure text contentType e :
  JSON_parse text = Throw e ->
  includes (toLowerCase contentType) "application/json" = true ->
  parseBodyText text (Some contentType) = Normal (VStr text).
Proof.
  intros Hfail Hjson. unfold parseBodyText.
  destruct contentType as [|c ct]; [discriminate Hjson|].
  rewrite Hjson, Hfail. reflexivity.
Qed.

Lemma captureRequestBody_string_within s headers :
  (Z.of_nat (String.length s) <= Options.maxBodySize options)%Z ->
  captureRequestBody options (BodyString s) headers
  = parseBodyText s (getContentType headers).
Proof.
  intros H. unfold captureRequestBody.
  apply Z.ltb_ge in H. rewrite H.
  destruct (parseBodyText_returns s (getContentType headers)) as [v ->].
  reflexivity.
Qed.


Lemma or_else_present text d : text <> "" -> or_else (Some text) d = text.
Proof.
  intros H. unfold or_else.
  destruct (String.eqb_spec text ""); [contradiction|reflexivity].
Qed.

(** The response path once neither early exit applies. *)
Lemma captureResponseBody_reads response :
  exceeds (parseInt10 (or_else (headers_get response "content-length") "0"))
          (Options.maxBodySize options) = false ->
  isBinaryContentType (or_else (headers_get response "content-type") "") = false ->
  captureResponseBody options response
  = (fst (Response_text response),
     try_catch
       (bindC (snd (Response_text response)) (fun text =>
          if (Options.maxBodySize options <? Z.of_nat (String.length text))%Z
          then Normal (truncated_with_preview text)
          else parseBodyText text
                 (Some (or_else (headers_get response "content-type") ""))))
       (fun error => Normal (capture_error "Failed to capture response body" error))).
Proof.
  intros Hlen Hbin. unfold captureResponseBody. rewrite Hlen, Hbin.
  now destruct (Response_text response).
Qed.

End CaptureFacts.

(** ** C1: a declared-JSON body that does not parse *)

(** C1 (as the code has it).  When the text is not valid JSON and the
    declared content type contains [application/json] (in any case), the
    parse failure is caught inside the shared text parser, whose outer
    handler returns the raw text: the text parser, [captureRequestBody] on a
    string body within the size bound, and [captureResponseBody] on a
    readable, non-binary response within the bound all return the raw text. *)
Theorem declared_json_parse_failure_returns_text
  {R : Runtime} (options : Options.t) (text contentType : string) (e : Thrown) :
  JSON_parse text = Throw e ->
  includes (toLowerCase contentType) "application/json" = true ->
  (Z.of_nat (String.length text) <= Options.maxBodySize options)%Z ->
  parseBodyText text (Some contentType) = Normal (VStr text)
  /\ (forall headers,
        getContentType headers = Some contentType ->
        captureRequestBody options (BodyString text) headers = Normal (VStr text))
  /\ (forall response,
        or_else (headers_get response "content-type") "" = contentType ->
        exceeds (parseInt10 (or_else (headers_get response "content-length") "0"))
                (Options.maxBodySize options) = false ->
        isBinaryContentType contentType = false ->
        bodyUsed response = false ->
        body_text response = Normal text ->
        snd (captureResponseBody options response) = Normal (VStr text)).
Proof.
  intros Hfail Hjson Hsize.
  pose proof (parseBodyText_declared_json_failure text contentType e Hfail Hjson)
    as Hparse.
  split; [exact Hparse|]. split.
  - intros headers Hct.
    rewrite (captureRequestBody_string_within options text headers Hsize), Hct.
    exact Hparse.
  - intros response Hct Hlen Hbin Hused Hbody.
    rewrite captureResponseBody_reads by (rewrite ?Hct; assumption).
    unfold Response_text. rewrite Hused, Hbody, Hct. simpl.
    apply Z.ltb_ge in Hsize. rewrite Hsize, Hparse. reflexivity.
Qed.

Lemma declared_json_parse_failure_returns_text_witness :
  @parseBodyText reference_runtime "oops" (Some "application/json")
  = Normal (VStr "oops")
  /\ @captureRequestBody reference_runtime default_options (BodyString "oops")
       json_headers = Normal (VStr "oops")
  /\ snd (@captureResponseBody reference_runtime default_options malformed_response)
     = Normal (VStr "oops").
Proof.
  destruct (@declared_json_parse_failure_returns_text reference_runtime
              default_options "oops" "application/json" Reference.syntax_error)
    as (Hparse & Hrequest & Hresponse).
  - vm_compute. reflexivity.
  - vm_compute. reflexivity.
  - vm_compute. discriminate.
  - split; [exact Hparse|]. split.
    + apply Hrequest. vm_compute. reflexivity.
    + apply Hresponse; vm_compute; reflexivity.
Defined.

(** C1, as stated, fails: the body [{bad] sent with the content type
    [application/json] does not parse, and its capture outcome is the raw
    text, which is not an error marker. *)
Lemma declared_json_parse_failure_is_not_an_error_marker :
  exists e, @JSON_parse reference_runtime "{bad" = Throw e
  /\ getContentType json_headers = Some "application/json"
  /\ includes "application/json" "application/json" = true
  /\ (Z.of_nat (String.length "{bad") <= Options.maxBodySize default_options)%Z
  /\ exists v,
       @captureRequestBody reference_runtime default_options (BodyString "{bad")
         json_headers = Normal v
       /\ v = VStr "{bad"
       /\ is_error_marker v = false.
Proof.
  exists Reference.syntax_error.
  split; [reflexivity|]. split; [reflexivity|]. split; [reflexivity|].
  split; [vm_compute; discriminate|].
  exists (VStr "{bad"). repeat split; reflexivity.
Qed.

(** ** C2: capture never throws and yields one tagged outcome *)

Section TaggedCapture.
Context {R : Runtime}.
Variable options : Options.t.

Lemma parseBodyText_outcome text contentType :
  parseBodyText text contentType = Normal (render (text_outcome text contentType)).
Proof.
  unfold parseBodyText, text_outcome, parse_or_text, structured_or_raw, try_catch.
  destruct contentType as [[|c ct]|].
  - now destruct (JSON_parse text).
  - destruct (includes (toLowerCase (String c ct)) "application/json");
      [now destruct (JSON_parse text)|].
    destruct (includes (toLowerCase (String c ct)) "application/x-www-form-urlencoded");
      [reflexivity|].
    destruct (includes (toLowerCase (String c ct)) "text/"); [reflexivity|].
    now destruct (JSON_parse text).
  - now destruct (JSON_parse text).
Qed.

Lemma captureRequestBody_outcome body headers :
  captureRequestBody options body headers
  = Normal (render (request_outcome options body headers)).
Proof.
  unfold captureRequestBody, request_outcome.
  destruct body as [|entries| |bytes|bytes ? ?|s|kind]; try reflexivity.
  - destruct (isBinary bytes); [reflexivity|].
    now rewrite parseBodyText_outcome.
  - destruct (isBinary bytes); [reflexivity|].
    now rewrite parseBodyText_outcome.
  - destruct (Options.maxBodySize options <? Z.of_nat (String.length s))%Z;
      [reflexivity|].
    now rewrite parseBodyText_outcome.
Qed.

Lemma captureResponseBody_outcome response :
  snd (captureResponseBody options response)
  = Normal (render (response_outcome options response)).
Proof.
  unfold captureResponseBody, response_outcome.
  destruct (exceeds _ _); [reflexivity|].
  destruct (isBinaryContentType _); [reflexivity|].
  destruct (Response_text response) as [response' [text|error]]; simpl;
    [|reflexivity].
  destruct (Options.maxBodySize options <? Z.of_nat (String.length text))%Z;
    [reflexivity|].
  now rewrite parseBodyText_outcome.
Qed.

End TaggedCapture.

(** C2 (as the code has it).  Both capture entry points return a value and
    never throw, and each attempt yields one tagged outcome: structured data,
    raw text, a binary, truncation, form-data or stream marker, an error
    marker, or (for a request body of any other shape) the body itself.  An
    exception that reaches the entry point's handler, as a failed read of
    the response body does, becomes an error marker carrying the failure
    message; a JSON parse failure is caught inside the text parser and
    yields the raw text. *)
Theorem capture_returns_one_tagged_outcome
  {R : Runtime} (options : Options.t) :
  (forall body headers,
     captureRequestBody options body headers
     = Normal (render (request_outcome options body headers)))
  /\ (forall response,
        snd (captureResponseBody options response)
        = Normal (render (response_outcome options response)))
  /\ (forall response error,
        exceeds (parseInt10 (or_else (headers_get response "content-length") "0"))
                (Options.maxBodySize options) = false ->
        isBinaryContentType (or_else (headers_get response "content-type") "") = false ->
        snd (Response_text response) = Throw error ->
        response_outcome options response
        = ErrorMarker "Failed to capture response body" (failure_message error))
  /\ (forall text contentType error,
        JSON_parse text = Throw error ->
        includes (toLowerCase contentType) "application/x-www-form-urlencoded" = false ->
        text_outcome text (Some contentType) = RawText text).
Proof.
  split; [apply captureRequestBody_outcome|].
  split; [apply captureResponseBody_outcome|]. split.
  - intros response error Hlen Hbin Hread. unfold response_outcome.
    now rewrite Hlen, Hbin, Hread.
  - intros text contentType error Hfail Hform.
    unfold text_outcome, structured_or_raw. rewrite Hfail.
    destruct contentType as [|c ct]; [reflexivity|]. rewrite Hform.
    destruct (includes (toLowerCase (String c ct)) "application/json");
      [reflexivity|].
    now destruct (includes (toLowerCase (String c ct)) "text/").
Qed.

Lemma capture_returns_one_tagged_outcome_witness :
  @response_outcome reference_runtime default_options broken_response
  = ErrorMarker "Failed to capture response body" "terminated"
  /\ @text_outcome reference_runtime "oops" (Some "application/json") = RawText "oops".
Proof.
  destruct (@capture_returns_one_tagged_outcome reference_runtime default_options)
    as (_ & _ & Hread & Hjson).
  split.
  - apply (Hread broken_response (ErrorObject "TypeError" "terminated"));
      vm_compute; reflexivity.
  - apply (Hjson "oops" "application/json" Reference.syntax_error);
      vm_compute; reflexivity.
Defined.

(** C2, as stated, fails: reading [malformed_response] raises a JSON parse
    exception inside the capture path, and the outcome is the raw text, not
    an error marker. *)
Lemma response_json_exception_is_not_an_error_marker :
  exists error, @JSON_parse reference_runtime "oops" = Throw error
  /\ snd (Response_text malformed_response) = Normal "oops"
  /\ exists v,
       snd (@captureResponseBody reference_runtime default_options malformed_response)
       = Normal v
       /\ v = VStr "oops"
       /\ is_error_marker v = false.
Proof.
  exists Reference.syntax_error.
  split; [reflexivity|]. split; [reflexivity|].
  exists (VStr "oops"). repeat split; reflexivity.
Qed.

(** ** C7: early exits of the response capture *)



(** ** C8: string bodies and the size bound *)

(** C8.  For a string body longer than [maxBodySize], [captureRequestBody]
    returns a truncation marker whose preview is the first 100 characters of
    the body and whose size is the full length of the body; a string body
    within the bound is handed to the shared text parser with the declared
    content type. *)
Theorem captureRequestBody_string_bound
  {R : Runtime} (options : Options.t) (body : string) (headers : option HeadersInit) :
  ((Options.maxBodySize options < Z.of_nat (String.length body))%Z ->
   captureRequestBody options (BodyString body) headers
   = Normal (VObj [ ("_truncated", VBool true);
                    ("_size", VNum (inject_Z (Z.of_nat (String.length body))));
                    ("_preview", VStr (substring 0 100 body)) ]))
  /\ ((Z.of_nat (String.length body) <= Options.maxBodySize options)%Z ->
      captureRequestBody options (BodyString body) headers
      = parseBodyText body (getContentType headers)).
Proof.
  split.
  - intros Hbig. unfold captureRequestBody. apply Z.ltb_lt in Hbig.
    rewrite Hbig. unfold truncated_with_preview, VLength.
    now rewrite take_substring.
  - apply captureRequestBody_string_within.
Qed.

Lemma captureRequestBody_string_bound_witness :
  Z.of_nat (String.length long_body) = 20000%Z
  /\ Options.maxBodySize default_options = 10000%Z
  /\ @captureRequestBody reference_runtime default_options (BodyString long_body) None
     = Normal (VObj [ ("_truncated", VBool true);
                      ("_size", VNum (inject_Z (Z.of_nat (String.length long_body))));
                      ("_preview", VStr (substring 0 100 long_body)) ])
  /\ @captureRequestBody reference_runtime default_options (BodyString "hello") None
     = @parseBodyText reference_runtime "hello" None.
Proof.
  destruct (@captureRequestBody_string_bound reference_runtime
              default_options long_body None) as (Hlong & _).
  destruct (@captureRequestBody_string_bound reference_runtime
              default_options "hello" None) as (_ & Hshort).
  split; [vm_compute; reflexivity|]. split; [reflexivity|]. split.
  - apply Hlong. vm_compute. reflexivity.
  - apply Hshort. vm_compute. discriminate.
Defined.

(** ** C9: the binary heuristic *)

Lemma Qgt_ratio (c n : Z) :
  (0 < n)%Z ->
  Qgt_bool (inject_Z c / inject_Z n) (3 # 10) = (3 * n <? 10 * c)%Z.
Proof.
  intros Hn. destruct n as [|p|p]; try lia.
  unfold Qgt_bool, Qle_bool, Qdiv, Qinv, Qmult, inject_Z. simpl Qnum. simpl Qden.
  destruct (Z.leb_spec (c * 1 * 10) (3 * Z.pos p));
    cbn [negb]; symmetry; [apply Z.ltb_ge | apply Z.ltb_lt]; lia.
Qed.

Lemma isBinary_exact (bytes : list byte) :
  bytes <> [] ->
  isBinary bytes
  = (3 * length bytes <? 10 * length (filter is_control_byte bytes)).
Proof.
  intros Hne. unfold isBinary. rewrite Qgt_ratio.
  - destruct (Nat.ltb_spec (3 * length bytes)
                           (10 * length (filter is_control_byte bytes)));
      [apply Z.ltb_lt | apply Z.ltb_ge]; lia.
  - destruct bytes; [contradiction|]. simpl length. lia.
Qed.

(** The binary64 evaluation of the source and the exact ratio give the same
    classification for every proportion of control bytes in arrays of up to
    200 bytes (the empty array included). *)
Lemma isBinary_double_agrees : doubles_agree_up_to 200 = true.
Proof. vm_compute. reflexivity. Qed.

(** C9.  The heuristic counts the bytes below 32 other than 9, 10 and 13, and
    classifies a non-empty byte sequence as binary exactly when that count
    is more than 30% of the number of bytes; so a sequence with 40% of such
    bytes is binary and one with 20% is not. *)
Theorem isBinary_threshold (bytes : list byte) :
  bytes <> [] ->
  (forall b, is_control_byte b = true <->
             Byte.to_nat b < 32 /\ Byte.to_nat b <> 9
             /\ Byte.to_nat b <> 10 /\ Byte.to_nat b <> 13)
  /\ (isBinary bytes = true <->
      3 * length bytes < 10 * length (filter is_control_byte bytes))
  /\ (10 * length (filter is_control_byte bytes) = 4 * length bytes ->
      isBinary bytes = true)
  /\ (10 * length (filter is_control_byte bytes) = 2 * length bytes ->
      isBinary bytes = false).
Proof.
  intros Hne. rewrite (isBinary_exact bytes Hne).
  assert (Hlen : 0 < length bytes) by (destruct bytes; [contradiction|simpl; lia]).
  split; [|split; [|split]].
  - intros b. unfold is_control_byte.
    rewrite !andb_true_iff, !negb_true_iff, Nat.ltb_lt, !Nat.eqb_neq. tauto.
  - apply Nat.ltb_lt.
  - intros H. apply Nat.ltb_lt. lia.
  - intros H. apply Nat.ltb_ge. lia.
Qed.

Lemma isBinary_threshold_witness :
  isBinary mostly_control = true /\ isBinary mostly_text = false.
Proof.
  destruct (isBinary_threshold mostly_control ltac:(discriminate))
    as (_ & _ & Hforty & _).
  destruct (isBinary_threshold mostly_text ltac:(discriminate))
    as (_ & _ & _ & Htwenty).
  split; [apply Hforty | apply Htwenty]; reflexivity.
Defined.

(** ** Capture orchestrator *)

Lemma add_attributes_nil sp : add_attributes sp [] = sp.
Proof. destruct sp. unfold add_attributes. simpl. now rewrite app_nil_r. Qed.

Lemma add_attributes_app sp a b :
  add_attributes (add_attributes sp a) b = add_attributes sp (a ++ b).
Proof. unfold add_attributes. simpl. now rewrite app_assoc. Qed.

Section OrchestratorFacts.
Context {R : Runtime}.
Variable options : Options.t.
Variable originalFetch : Transport.

Lemma attach_headers_run side headers sp :
  NoDup (obj_keys headers) ->
  attach_headers side headers sp
  = (add_attributes sp (header_attributes side headers), Normal tt).
Proof.
  intros Hnd. unfold attach_headers, bindS, liftC, header_attributes.
  rewrite (redact_headers_spec headers Hnd). cbn [fst snd setAttributes].
  rewrite <- add_attributes_app.
  destruct (fold_left header_claims headers []) as [|c cs]; cbn [of_strings map].
  - now rewrite add_attributes_nil.
  - reflexivity.
Qed.

Lemma attach_body_run name bodyData sp :
  attach_body name bodyData sp
  = (add_attributes sp (body_attributes name bodyData), Normal tt).
Proof.
  unfold attach_body, body_attributes.
  destruct (truthy bodyData); [reflexivity|].
  unfold retS. now rewrite add_attributes_nil.
Qed.

Lemma request_phase_run init sp :
  request_phase options init sp
  = (add_attributes sp (request_header_attributes options init ++ request_body_attributes options init),
     Normal tt).
Proof.
  unfold request_phase, bindS, request_header_attributes, request_body_attributes.
  assert (Hhead :
    (match init with
     | Some {| init_headers := Some headers |} =>
         if Options.captureHeaders options
         then attach_headers "request" (normalizeHeaders headers)
         else retS tt
     | _ => retS tt
     end) sp
    = (add_attributes sp (request_header_attributes options init), Normal tt)).
  { unfold request_header_attributes.
    destruct init as [[m [h|] b]|]; unfold retS; rewrite ?add_attributes_nil;
      try reflexivity.
    destruct (Options.captureHeaders options);
      [apply attach_headers_run, normalizeHeaders_NoDup
      | unfold retS; now rewrite add_attributes_nil]. }
  rewrite Hhead. rewrite <- add_attributes_app.
  fold (request_header_attributes options init).
  destruct init as [[m h [body|]]|]; unfold retS; rewrite ?add_attributes_nil;
    try reflexivity.
  destruct (Options.captureRequestBody options && body_present body);
    [|unfold retS; now rewrite add_attributes_nil].
  unfold liftC. rewrite captureRequestBody_outcome. apply attach_body_run.
Qed.

Lemma response_phase_run response sp :
  response_phase options response sp
  = let sp' := add_attributes sp (response_head_attributes options response) in
    if Options.captureResponseBody options then
      match Response_clone response with
      | Normal responseClone =>
          (add_attributes sp'
             (body_attributes "response.body"
                (render (response_outcome options responseClone))),
           Normal tt)
      | Throw e => (sp', Throw e)
      end
    else (sp', Normal tt).
Proof.
  unfold response_phase, bindS, response_head_attributes.
  cbn [setAttributes]. fold (add_attributes sp
    [("http.status_code", VNum (inject_Z (status response)));
     ("http.status_text", VStr (statusText response))]).
  rewrite <- add_attributes_app.
  set (sp1 := add_attributes sp _).
  assert (Hhead :
    (if Options.captureHeaders options
     then attach_headers "response"
            (normalizeHeaders (HeadersObject (response_headers response)))
     else retS tt) sp1
    = (add_attributes sp1
         (if Options.captureHeaders options
          then header_attributes "response"
                 (normalizeHeaders (HeadersObject (response_headers response)))
          else []), Normal tt)).
  { destruct (Options.captureHeaders options);
      [apply attach_headers_run, normalizeHeaders_NoDup
      | unfold retS; now rewrite add_attributes_nil]. }
  rewrite Hhead. cbv zeta.
  destruct (Options.captureResponseBody options); [|reflexivity].
  unfold liftC. destruct (Response_clone response) as [responseClone|e];
    [|reflexivity].
  rewrite captureResponseBody_outcome. apply attach_body_run.
Qed.

(** What the traced call does to the span, and what it returns. *)
Lemma traced_call_run input init sp :
  traced_call options originalFetch input init sp
  = let sp1 := add_attributes sp
                 (request_header_attributes options init ++ request_body_attributes options init) in
    match originalFetch input init with
    | Throw e => (finish sp1 (StatusERROR (failure_message e)), Throw e)
    | Normal response =>
        let sp2 := add_attributes sp1 (response_head_attributes options response) in
        if Options.captureResponseBody options then
          match Response_clone response with
          | Normal responseClone =>
              (finish (add_attributes sp2
                         (body_attributes "response.body"
                            (render (response_outcome options responseClone))))
                      StatusOK,
               Normal response)
          | Throw e => (finish sp2 (StatusERROR (failure_message e)), Throw e)
          end
        else (finish sp2 StatusOK, Normal response)
    end.
Proof.
  unfold traced_call, try_catch_finally, bindS.
  rewrite request_phase_run. unfold liftC at 1.
  destruct (originalFetch input init) as [response|e]; [|reflexivity].
  rewrite response_phase_run. cbv zeta.
  destruct (Options.captureResponseBody options); [|reflexivity].
  destruct (Response_clone response) as [responseClone|e]; reflexivity.
Qed.

End OrchestratorFacts.

Lemma interceptFetch_run {R : Runtime} options originalFetch input init :
  interceptFetch options originalFetch input init
  = match URL_parse (input_url input) with
    | Throw e => (None, Throw e)
    | Normal location =>
        (Some (fst (traced_call options originalFetch input init
                      (initial_span input init location))),
         snd (traced_call options originalFetch input init
                (initial_span input init location)))
    end.
Proof.
  unfold interceptFetch.
  destruct (URL_parse (input_url input)) as [[protocol host]|e]; [|reflexivity].
  unfold initial_span. cbn [fst snd].
  now destruct (traced_call _ _ _ _ _).
Qed.

(** ** C5: the span is finalized on every path *)



(** ** Attribute names *)

Lemma startsWith_app p x : startsWith p (p ++ x) = true.
Proof. induction p as [|c p IH]; simpl; [reflexivity|]. now rewrite Ascii.eqb_refl. Qed.

Lemma obj_set_keys_In {V} (o : list (string * V)) k v k' :
  In k' (obj_keys (obj_set o k v)) -> k' = k \/ In k' (obj_keys o).
Proof.
  induction o as [|[k0 v0] o IH]; simpl.
  - intros [<-|[]]. now left.
  - destruct (String.eqb_spec k0 k) as [->|Hne]; simpl.
    + intros [<-|H]; [now left|right; now right].
    + intros [<-|H]; [right; now left|].
      destruct (IH H) as [->|H']; [now left|right; now right].
Qed.

Lemma of_strings_names (o : list (string * string)) :
  map fst (of_strings o) = obj_keys o.
Proof. unfold of_strings, obj_keys. rewrite map_map. reflexivity. Qed.

Section AttributeNames.
Context {R : Runtime}.

Lemma add_claims_names claims : forall acc,
  Forall token_named (obj_keys acc) ->
  Forall token_named (obj_keys (add_claims acc claims)).
Proof.
  unfold add_claims. induction (Object_entries claims) as [|[k v] l IH];
    intros acc H; simpl; [exact H|].
  apply IH. destruct (scalar_to_String v); [|exact H].
  apply Forall_forall. intros name Hin.
  apply obj_set_keys_In in Hin as [->|Hin].
  - apply (startsWith_app "token." k).
  - now apply (proj1 (Forall_forall _ _) H).
Qed.

Lemma header_claims_names headers : forall acc,
  Forall token_named (obj_keys acc) ->
  Forall token_named (obj_keys (fold_left header_claims headers acc)).
Proof.
  induction headers as [|kv headers IH]; intros acc H; simpl; [exact H|].
  apply IH. unfold header_claims.
  destruct (_ && _); [|exact H].
  destruct (truthy _); [|exact H]. now apply add_claims_names.
Qed.

Lemma header_attributes_names side headers name :
  In name (map fst (header_attributes side headers)) ->
  startsWith (side ++ ".headers") name = true \/ token_named name.
Proof.
  unfold header_attributes. rewrite map_app, in_app_iff, of_strings_names.
  intros [H|H].
  - left. unfold flatten_headers in H.
    destruct (map redact_entry headers) as [|e l].
    + simpl in H. destruct H as [<-|[]].
      rewrite <- (string_app_nil_r (side ++ ".headers")) at 2.
      apply startsWith_app.
    + apply in_map_iff in H as ([n v] & <- & H).
      apply in_map_iff in H as ([k w] & Heq & _). inversion Heq; subst.
      change (startsWith (side ++ ".headers")
                (side ++ (".headers" ++ ("." ++ k)))%string = true).
      rewrite <- string_app_assoc. apply startsWith_app.
  - right.
    apply (proj1 (Forall_forall _ _) (header_claims_names headers [] (Forall_nil _))).
    exact H.
Qed.

(** Headers and claims never produce a body attribute. *)
Lemma header_attributes_no_body side headers name :
  side = "request" \/ side = "response" ->
  name = "request.body" \/ name = "response.body" ->
  ~ In name (map fst (header_attributes side headers)).
Proof.
  intros Hside Hname Hin.
  apply header_attributes_names in Hin.
  destruct Hside as [-> | ->], Hname as [-> | ->], Hin as [Hin|Hin];
    discriminate Hin.
Qed.

Lemma body_attributes_names name bodyData other :
  In other (map fst (body_attributes name bodyData)) <->
  other = name /\ truthy bodyData = true.
Proof.
  unfold body_attributes. destruct (truthy bodyData); simpl.
  - split; [intros [<-|[]]; auto | intros [-> _]; now left].
  - split; [intros [] | intros [_ H]; discriminate].
Qed.

End AttributeNames.

Section BodyAttribute.
Context {R : Runtime}.
Variable options : Options.t.
Variable originalFetch : Transport.
Variable input : FetchInput.
Variable init : option RequestInit.

Lemma interceptFetch_attributes span outcome :
  interceptFetch options originalFetch input init = (Some span, outcome) ->
  exists location,
    attributes span
    = attributes (initial_span input init location)
      ++ request_header_attributes options init
      ++ request_body_attributes options init
      ++ (response_attributes options originalFetch input init).
Proof.
  rewrite interceptFetch_run. intros H.
  destruct (URL_parse (input_url input)) as [location|e]; [|discriminate].
  exists location. inversion H as [[Hspan Hout]]. clear H Hout Hspan.
  rewrite traced_call_run. cbv zeta. unfold response_attributes.
  destruct (originalFetch input init) as [response|e]; cbn [fst].
  - destruct (Options.captureResponseBody options).
    + destruct (Response_clone response) as [responseClone|e]; cbn [fst];
        unfold finish, add_attributes; cbn [attributes];
        rewrite ?app_nil_r, <- ?app_assoc; reflexivity.
    + cbn [fst]. unfold finish, add_attributes; cbn [attributes].
      rewrite ?app_nil_r, <- ?app_assoc; reflexivity.
  - unfold finish, add_attributes; cbn [attributes].
    rewrite ?app_nil_r, <- ?app_assoc; reflexivity.
Qed.

Lemma initial_span_no_body location name :
  name = "request.body" \/ name = "response.body" ->
  ~ In name (map fst (attributes (initial_span input init location))).
Proof. intros [-> | ->]; simpl; intuition discriminate. Qed.

Lemma request_header_attributes_no_body name :
  name = "request.body" \/ name = "response.body" ->
  ~ In name (map fst (request_header_attributes options init)).
Proof.
  intros Hname. unfold request_header_attributes.
  destruct init as [[m [h|] b]|]; try (intros []).
  destruct (Options.captureHeaders options); [|intros []].
  apply header_attributes_no_body; auto.
Qed.

Lemma request_body_attributes_names name :
  In name (map fst (request_body_attributes options init)) <->
  name = "request.body"
  /\ Options.captureRequestBody options = true
  /\ exists i body bodyData,
       init = Some i /\ init_body i = Some body /\ body_present body = true
       /\ captureRequestBody options body (init_headers i) = Normal bodyData
       /\ truthy bodyData = true.
Proof.
  unfold request_body_attributes. split.
  - destruct init as [[m h [body|]]|]; try (intros []).
    destruct (Options.captureRequestBody options) eqn:Hopt; [|intros []].
    destruct (body_present body) eqn:Hbody; [|intros []]. cbn [andb].
    intros H. apply body_attributes_names in H as [-> Htruthy].
    split; [reflexivity|]. split; [reflexivity|].
    eexists _, body, _. split; [reflexivity|]. cbn [init_body init_headers].
    split; [reflexivity|]. split; [exact Hbody|].
    split; [apply captureRequestBody_outcome | exact Htruthy].
  - intros (-> & Hopt & i & body & bodyData & -> & Hb & Hpresent & Hcap & Htruthy).
    destruct i as [m h b]. cbn [init_body init_headers] in *. subst b.
    rewrite Hopt, Hpresent. cbn [andb].
    apply body_attributes_names. split; [reflexivity|].
    rewrite captureRequestBody_outcome in Hcap.
    injection Hcap as Heq. now rewrite Heq.
Qed.

Lemma response_attributes_names name :
  name = "request.body" \/ name = "response.body" ->
  (In name (map fst (response_attributes options originalFetch input init)) <->
   name = "response.body"
   /\ Options.captureResponseBody options = true
   /\ exists response responseClone bodyData,
        originalFetch input init = Normal response
        /\ Response_clone response = Normal responseClone
        /\ snd (captureResponseBody options responseClone) = Normal bodyData
        /\ truthy bodyData = true).
Proof.
  intros Hname. unfold response_attributes. split.
  - destruct (originalFetch input init) as [response|e]; [|intros []].
    rewrite map_app, in_app_iff. intros [H|H].
    + exfalso. unfold response_head_attributes in H.
      rewrite map_app, in_app_iff in H. destruct H as [H|H].
      * destruct Hname as [-> | ->]; simpl in H; intuition discriminate.
      * destruct (Options.captureHeaders options); [|contradiction].
        revert H. apply header_attributes_no_body; auto.
    + destruct (Options.captureResponseBody options); [|contradiction].
      destruct (Response_clone response) as [responseClone|e] eqn:Hclone;
        [|contradiction].
      apply body_attributes_names in H as [-> Htruthy].
      split; [reflexivity|]. split; [reflexivity|].
      exists response, responseClone, (render (response_outcome options responseClone)).
      split; [reflexivity|]. split; [exact Hclone|].
      split; [apply captureResponseBody_outcome | exact Htruthy].
  - intros (-> & Hopt & response & responseClone & bodyData
            & -> & Hclone & Hcap & Htruthy).
    rewrite map_app, in_app_iff. right. rewrite Hopt, Hclone.
    apply body_attributes_names. split; [reflexivity|].
    rewrite captureResponseBody_outcome in Hcap.
    injection Hcap as Heq. now rewrite Heq.
Qed.

End BodyAttribute.

(** ** C10: a body attribute is attached only for a truthy outcome *)



(** ** C6: install and restore *)

Lemma disable_idempotent g :
  disableFetchBodyCapture (disableFetchBodyCapture g) = disableFetchBodyCapture g.
Proof.
  unfold disableFetchBodyCapture.
  destruct (interceptorInstance g) eqn:E; simpl; [reflexivity|now rewrite E].
Qed.

Lemma reachable_singleton transport w :
  reachable transport w -> singleton_invariant transport w.
Proof.
  induction 1 as [|w op w' Hreach IH Hstep].
  - repeat split; simpl; try tauto; try discriminate.
  - destruct IH as (Hhandles & Hinst & Hslot & Hnone).
    destruct Hstep as [w options|w|w handle Hin]; unfold singleton_invariant; simpl.
    + assert (Horig : this_originalFetch
                        (snd (enableFetchBodyCapture options (global w)))
                      = Native transport).
      { unfold enableFetchBodyCapture.
        destruct (interceptorInstance (global w)) as [prior|] eqn:E; simpl.
        - apply Hhandles. now apply Hinst.
        - now apply Hnone. }
      repeat split.
      * intros handle [<-|Hin]; [exact Horig|now apply Hhandles].
      * unfold enableFetchBodyCapture. simpl. intros instance Heq.
        injection Heq as <-. now left.
      * right. exists (with_defaults options). unfold enableFetchBodyCapture in *.
        simpl in *. now rewrite Horig.
      * unfold enableFetchBodyCapture. simpl. discriminate.
    + unfold disableFetchBodyCapture.
      destruct (interceptorInstance (global w)) as [instance|] eqn:E; simpl.
      * assert (Ho : this_originalFetch instance = Native transport)
          by (apply Hhandles; now apply Hinst).
        repeat split; auto; try discriminate.
      * rewrite E. repeat split; auto.
    + assert (Ho : this_originalFetch handle = Native transport)
        by now apply Hhandles.
      repeat split; auto.
Qed.

(** C6 (as the code has it).  [enableFetchBodyCapture] first restores the
    active handle, so the new handle saves the transport that was in the slot
    before any installation, and in every state a program reaches by
    installing, uninstalling and restoring handles the slot holds the
    runtime's transport under at most one wrapper.  [restore] writes the
    handle's saved original into the slot, after which a call is a direct
    transport call; restoring again right away changes nothing, and so does
    uninstalling twice or uninstalling when nothing is installed. *)
Theorem install_restore_singleton
  {R : Runtime} (transport : Transport) (w : World) :
  reachable transport w ->
  (forall options,
     let g' := fst (enableFetchBodyCapture options (global w)) in
     let handle := snd (enableFetchBodyCapture options (global w)) in
     this_originalFetch handle = Native transport
     /\ globalThis_fetch g' = Intercepting (with_defaults options) (Native transport)
     /\ interceptorInstance g' = Some handle)
  /\ layers (globalThis_fetch (global w)) <= 1
  /\ (forall handle, In handle (handles w) ->
        globalThis_fetch (restore handle (global w)) = this_originalFetch handle
        /\ call_fetch (globalThis_fetch (restore handle (global w))) = transport
        /\ restore handle (restore handle (global w)) = restore handle (global w))
  /\ call_fetch (globalThis_fetch (disableFetchBodyCapture (global w))) = transport
  /\ disableFetchBodyCapture (disableFetchBodyCapture (global w))
     = disableFetchBodyCapture (global w)
  /\ (interceptorInstance (global w) = None ->
      disableFetchBodyCapture (global w) = global w).
Proof.
  intros Hreach.
  pose proof (reachable_singleton _ _ Hreach) as (Hhandles & Hinst & Hslot & Hnone).
  pose proof (reachable_singleton _ _
                (reach_step _ _ _ _ Hreach (step_disable w)))
    as (_ & _ & _ & Hdisabled).
  split; [|split; [|split; [|split; [|split]]]].
  - intros options.
    pose proof (reachable_singleton _ _
                  (reach_step _ _ _ _ Hreach (step_enable w options)))
      as (Hhandles' & _ & _ & _).
    simpl in Hhandles'.
    assert (Ho : this_originalFetch (snd (enableFetchBodyCapture options (global w)))
                 = Native transport) by (apply Hhandles'; now left).
    split; [exact Ho|]. unfold enableFetchBodyCapture in *. simpl in *.
    now rewrite Ho.
  - destruct Hslot as [-> | [options ->]]; simpl; lia.
  - intros handle Hin. unfold restore. simpl.
    rewrite (Hhandles handle Hin). repeat split.
  - simpl in Hdisabled. rewrite Hdisabled; [reflexivity|].
    unfold disableFetchBodyCapture.
    now destruct (interceptorInstance (global w)) eqn:E.
  - apply disable_idempotent.
  - intros Hn. unfold disableFetchBodyCapture. now rewrite Hn.
Qed.

Lemma installed_twice_reachable : reachable failing_transport installed_twice.
Proof.
  unfold installed_twice.
  eapply reach_step; [eapply reach_step; [apply reach_init|]|].
  - apply (step_enable (initial_world failing_transport) no_options).
  - apply (step_enable _ no_options).
Qed.

Lemma install_restore_singleton_witness :
  layers (globalThis_fetch (global installed_twice)) <= 1
  /\ @call_fetch reference_runtime
       (globalThis_fetch (restore first_handle (global installed_twice)))
     = failing_transport
  /\ @call_fetch reference_runtime
       (globalThis_fetch (disableFetchBodyCapture (global installed_twice)))
     = failing_transport
  /\ disableFetchBodyCapture (global (initial_world failing_transport))
     = global (initial_world failing_transport).
Proof.
  destruct (@install_restore_singleton reference_runtime failing_transport
              installed_twice installed_twice_reachable)
    as (_ & Hlayers & Hrestore & Hdisable & _).
  destruct (@install_restore_singleton reference_runtime failing_transport
              (initial_world failing_transport) (reach_init failing_transport))
    as (_ & _ & _ & _ & _ & Hnone).
  split; [exact Hlayers|]. split; [|split; [exact Hdisable|]].
  - apply (Hrestore first_handle). right. now left.
  - apply Hnone. reflexivity.
Defined.

(** C6, as stated, fails: after a second installation has restored the first
    handle, calling [restore()] on that first handle is not a no-op; it
    removes the wrapper of the second, active handle from the slot. *)
Lemma restoring_a_restored_handle_is_not_a_no_op :
  In first_handle (handles installed_twice)
  /\ globalThis_fetch (global installed_twice)
     = Intercepting default_options (Native failing_transport)
  /\ globalThis_fetch (restore first_handle (global installed_twice))
     = Native failing_transport
  /\ restore first_handle (global installed_twice) <> global installed_twice.
Proof.
  split; [right; now left|]. split; [reflexivity|]. split; [reflexivity|].
  intros H. apply (f_equal globalThis_fetch) in H. discriminate H.
Qed.

(* ================================================================== *)
(** * Further properties of the code *)

(** ** Header normalization *)

Lemma lower_ascii_idempotent c : lower_ascii (lower_ascii c) = lower_ascii c.
Proof. destruct c as [[] [] [] [] [] [] [] []]; reflexivity. Qed.

Lemma toLowerCase_idempotent s : toLowerCase (toLowerCase s) = toLowerCase s.
Proof.
  induction s as [|c s IH]; simpl; [reflexivity|].
  now rewrite lower_ascii_idempotent, IH.
Qed.

Lemma obj_get_obj_set {V} (o : list (string * V)) k v k' :
  obj_get (obj_set o k v) k' = if String.eqb k k' then Some v else obj_get o k'.
Proof.
  induction o as [|[k0 v0] o IH]; simpl; [reflexivity|].
  destruct (String.eqb_spec k0 k) as [->|Hne]; simpl.
  - now destruct (String.eqb k k').
  - rewrite IH. destruct (String.eqb_spec k0 k') as [->|Hne'];
      [|reflexivity].
    destruct (String.eqb_spec k k') as [->|]; [contradiction|reflexivity].
Qed.

Section FoldObjSet.
Context {A V : Type}.
Variable f : A -> string.
Variable g : A -> V.

Let assign (o : list (string * V)) (x : A) := obj_set o (f x) (g x).

Lemma fold_obj_set_get_other l : forall acc k,
  (forall x, In x l -> f x <> k) ->
  obj_get (fold_left assign l acc) k = obj_get acc k.
Proof.
  induction l as [|x l IH]; intros acc k H; simpl; [reflexivity|].
  rewrite IH by (intros y Hy; apply H; now right).
  unfold assign. rewrite obj_get_obj_set.
  destruct (String.eqb_spec (f x) k) as [Heq|]; [|reflexivity].
  exfalso. apply (H x); [now left | exact Heq].
Qed.

Lemma fold_obj_set_get_last pre x post acc :
  (forall y, In y post -> f y <> f x) ->
  obj_get (fold_left assign (pre ++ x :: post) acc) (f x) = Some (g x).
Proof.
  intros H. rewrite fold_left_app. simpl.
  rewrite fold_obj_set_get_other by exact H.
  unfold assign. now rewrite obj_get_obj_set, String.eqb_refl.
Qed.

Lemma fold_obj_set_keys l : forall acc k,
  In k (obj_keys (fold_left assign l acc)) ->
  In k (obj_keys acc) \/ exists x, In x l /\ f x = k.
Proof.
  induction l as [|x l IH]; intros acc k H; simpl in H; [now left|].
  apply IH in H as [H|(y & Hy & <-)].
  - unfold assign in H. apply obj_set_keys_In in H as [->|H]; [|now left].
    right. exists x. split; [now left|reflexivity].
  - right. exists y. split; [now right|reflexivity].
Qed.

Lemma fold_obj_set_keys_complete l : forall acc k,
  In k (obj_keys acc) \/ (exists x, In x l /\ f x = k) ->
  In k (obj_keys (fold_left assign l acc)).
Proof.
  induction l as [|x l IH]; intros acc k H; simpl.
  - destruct H as [H|(x & [] & _)]. exact H.
  - apply IH. destruct H as [H|(y & [<-|Hy] & <-)].
    + left. unfold assign.
      destruct (in_dec string_dec (f x) (obj_keys acc)) as [Hin|Hout].
      * now rewrite obj_set_keys_present.
      * rewrite obj_set_fresh by exact Hout. unfold obj_keys.
        rewrite map_app. apply in_or_app. now left.
    + left. unfold assign.
      destruct (in_dec string_dec (f x) (obj_keys acc)) as [Hin|Hout].
      * now rewrite obj_set_keys_present.
      * rewrite obj_set_fresh by exact Hout. unfold obj_keys.
        rewrite map_app. apply in_or_app. right. now left.
    + right. now exists y.
Qed.

End FoldObjSet.

Lemma filter_all {A} (p : A -> bool) (l : list A) :
  (forall x, In x l -> p x = true) -> filter p l = l.
Proof.
  induction l as [|x l IH]; intros H; simpl; [reflexivity|].
  rewrite (H x) by now left. f_equal. apply IH. intros y Hy. apply H. now right.
Qed.

Lemma normalizeHeaders_fold headers :
  normalizeHeaders headers
  = fold_left (fun o kv => obj_set o (toLowerCase (fst kv)) (snd kv))
              (filter (fun kv => negb (String.eqb (toLowerCase (fst kv)) "__proto__"))
                      (header_entries headers)) [].
Proof.
  unfold normalizeHeaders.
  rewrite (fold_obj_assign_filter (fun kv => toLowerCase (fst kv)) snd).
  now destruct headers.
Qed.

Lemma normalizeHeaders_no_proto headers :
  ~ In "__proto__" (obj_keys (normalizeHeaders headers)).
Proof.
  rewrite normalizeHeaders_fold. intros Hin.
  apply (fold_obj_set_keys (fun kv => toLowerCase (fst kv)) snd) in Hin
    as [[]|(x & Hx & Heq)].
  apply filter_In in Hx as [_ Hx]. rewrite Heq in Hx. discriminate Hx.
Qed.

Lemma obj_get_absent {V} (o : list (string * V)) k :
  ~ In k (obj_keys o) -> obj_get o k = None.
Proof.
  induction o as [|[k' v'] o IH]; simpl; intros H; [reflexivity|].
  destruct (String.eqb_spec k' k) as [->|Hne].
  - exfalso. apply H. now left.
  - apply IH. intros Hin. apply H. now right.
Qed.

(** X1.  The object [normalizeHeaders] returns, read by own property.  The
    entries are those the code iterates: what [forEach] presents for a
    [Headers] object, the pairs of an array, the entries of a record.  A
    name that no entry has, up to letter case, is absent.  A name other than
    [__proto__] holds the value of the last entry that has it up to letter
    case (for a [Headers] object, whose names come lower-case and once each,
    the one entry of that name).  [__proto__] is never an own property.
    [getContentType] is the lookup of [content-type], and is undefined when
    no headers are given. *)
Theorem normalizeHeaders_lookup (headers : HeadersInit) (name : string) :
  ((forall key value, In (key, value) (header_entries headers) ->
                      toLowerCase key <> name) ->
   obj_get (normalizeHeaders headers) name = None)
  /\ (forall pre key value post,
        header_entries headers = pre ++ (key, value) :: post ->
        toLowerCase key = name ->
        name <> "__proto__" ->
        (forall k v, In (k, v) post -> toLowerCase k <> name) ->
        obj_get (normalizeHeaders headers) name = Some value
        /\ (name = "content-type" -> getContentType (Some headers) = Some value))
  /\ obj_get (normalizeHeaders headers) "__proto__" = None
  /\ getContentType None = None.
Proof.
  split; [|split; [|split; [|reflexivity]]].
  - intros H. rewrite normalizeHeaders_fold.
    rewrite (fold_obj_set_get_other (fun kv => toLowerCase (fst kv)) snd).
    + reflexivity.
    + intros [k v] Hin. apply filter_In in Hin as [Hin _]. apply (H k v Hin).
  - intros pre key value post Hentries <- Hown Hlast.
    assert (Hget : obj_get (normalizeHeaders headers) (toLowerCase key)
                   = Some value).
    { rewrite normalizeHeaders_fold, Hentries, filter_app. cbn [filter fst].
      destruct (String.eqb_spec (toLowerCase key) "__proto__") as [Heq|_];
        [contradiction|]. cbn [negb].
      apply (fold_obj_set_get_last (fun kv => toLowerCase (fst kv)) snd
               _ (key, value) _ []).
      intros [k v] Hin. apply filter_In in Hin as [Hin _].
      apply (Hlast k v Hin). }
    split; [exact Hget|].
    intros Hname. unfold getContentType. rewrite <- Hname. exact Hget.
  - apply obj_get_absent, normalizeHeaders_no_proto.
Qed.

Lemma normalizeHeaders_lookup_witness :
  getContentType
    (Some (HeaderPairs [ ("Content-Type", "text/plain"); ("Accept", "*/*");
                         ("CONTENT-TYPE", "application/json") ]))
  = Some "application/json"
  /\ obj_get (normalizeHeaders (HeaderRecord [("Accept", "*/*")])) "content-type"
     = None.
Proof.
  destruct (normalizeHeaders_lookup
              (HeaderPairs [ ("Content-Type", "text/plain"); ("Accept", "*/*");
                             ("CONTENT-TYPE", "application/json") ])
              "content-type") as (_ & Hlast & _).
  destruct (normalizeHeaders_lookup (HeaderRecord [("Accept", "*/*")])
                                    "content-type") as (Hnone & _).
  split.
  - apply (Hlast [("Content-Type", "text/plain"); ("Accept", "*/*")]
                 "CONTENT-TYPE" "application/json" []);
      [reflexivity | reflexivity | discriminate | intros k v [] | reflexivity].
  - apply Hnone. intros key value [Heq|[]]. injection Heq as <- <-.
    discriminate.
Defined.

Lemma fold_lower_fixed (l : list (string * string)) :
  Forall (fun k => toLowerCase k = k) (obj_keys l) ->
  fold_left (fun o kv => obj_set o (toLowerCase (fst kv)) (snd kv)) l []
  = obj_of_entries l.
Proof.
  intros H. unfold obj_of_entries.
  generalize (@nil (string * string)) as acc.
  induction l as [|[k v] l IH]; intros acc; simpl; [reflexivity|].
  inversion H as [|? ? Hk Hl]; subst. simpl in Hk. rewrite Hk. now apply IH.
Qed.

(** X2.  The normalized headers have lower-case names only, one entry per
    name, and never an entry named [__proto__]; handing them to
    [normalizeHeaders] again, as a record or as the array of their entries,
    gives them back unchanged. *)
Theorem normalizeHeaders_canonical (headers : HeadersInit) :
  Forall (fun key => toLowerCase key = key) (obj_keys (normalizeHeaders headers))
  /\ NoDup (obj_keys (normalizeHeaders headers))
  /\ ~ In "__proto__" (obj_keys (normalizeHeaders headers))
  /\ normalizeHeaders (HeaderRecord (normalizeHeaders headers))
     = normalizeHeaders headers
  /\ normalizeHeaders (HeaderPairs (normalizeHeaders headers))
     = normalizeHeaders headers.
Proof.
  assert (Hlower : Forall (fun key => toLowerCase key = key)
                          (obj_keys (normalizeHeaders headers))).
  { apply Forall_forall. intros k Hin. rewrite normalizeHeaders_fold in Hin.
    apply (fold_obj_set_keys (fun kv => toLowerCase (fst kv)) snd) in Hin
      as [[]|(x & _ & <-)].
    apply toLowerCase_idempotent. }
  pose proof (normalizeHeaders_NoDup headers) as Hnd.
  pose proof (normalizeHeaders_no_proto headers) as Hown.
  assert (Hagain :
    fold_left (fun o kv => obj_assign o (toLowerCase (fst kv)) (snd kv))
              (normalizeHeaders headers) []
    = normalizeHeaders headers).
  { rewrite (fold_obj_assign_filter (fun kv => toLowerCase (fst kv)) snd).
    rewrite filter_all.
    - rewrite (fold_lower_fixed _ Hlower). now apply obj_of_entries_id.
    - intros [k v] Hin. cbn [fst].
      assert (Hk : In k (obj_keys (normalizeHeaders headers))).
      { change (In (fst (k, v)) (map fst (normalizeHeaders headers))).
        now apply in_map. }
      rewrite (proj1 (Forall_forall _ _) Hlower k Hk).
      destruct (String.eqb_spec k "__proto__") as [->|_]; [contradiction|].
      reflexivity. }
  repeat split; assumption.
Qed.

(** ** Redaction *)

Lemma startsWith_split p : forall s,
  startsWith p s = true -> exists rest, s = (p ++ rest)%string.
Proof.
  induction p as [|a p IH]; intros s H; simpl in *.
  - now exists s.
  - destruct s as [|b s]; [discriminate|].
    apply andb_true_iff in H as [Hab Hps]. apply Ascii.eqb_eq in Hab. subst b.
    destruct (IH s Hps) as [rest ->]. now exists rest.
Qed.

Lemma redact_entry_idempotent kv : redact_entry (redact_entry kv) = redact_entry kv.
Proof.
  destruct kv as [k v]. unfold redact_entry. simpl.
  now destruct (is_sensitive (toLowerCase k)).
Qed.

Section RedactionFacts.
Context {R : Runtime}.

(** The redaction sentinel is not a token. *)
Lemma claims_of_REDACTED : claims_of REDACTED = VNull.
Proof. reflexivity. Qed.

Lemma header_claims_redacted (headers : Headers) : forall acc,
  fold_left header_claims (map redact_entry headers) acc = acc.
Proof.
  induction headers as [|[k v] headers IH]; intros acc; simpl; [reflexivity|].
  rewrite IH. unfold header_claims, redact_entry. simpl.
  destruct (is_sensitive (toLowerCase k)); [|reflexivity].
  destruct (includes (toLowerCase k) "authorization"); reflexivity.
Qed.

Lemma header_claims_without_authorization (headers : Headers) : forall acc,
  (forall key value, In (key, value) headers ->
     includes (toLowerCase key) "authorization" = false \/ value = "") ->
  fold_left header_claims headers acc = acc.
Proof.
  induction headers as [|[k v] headers IH]; intros acc H; simpl; [reflexivity|].
  rewrite IH by (intros key value Hin; apply H; now right).
  unfold header_claims. simpl.
  destruct (H k v (or_introl eq_refl)) as [Hno | ->].
  - rewrite Hno. now rewrite andb_false_r.
  - simpl. now rewrite andb_false_r.
Qed.

End RedactionFacts.

(** X3.  Redacting headers that were already redacted changes nothing and
    extracts no claims: the sentinel written over a sensitive value is not
    itself read as a token. *)
Theorem redact_headers_idempotent {R : Runtime} (headers : Headers) :
  NoDup (obj_keys headers) ->
  exists redactedHeaders jwtClaims,
    redact_headers headers = Normal (redactedHeaders, jwtClaims)
    /\ redact_headers redactedHeaders = Normal (redactedHeaders, []).
Proof.
  intros Hnd. exists (map redact_entry headers), (fold_left header_claims headers []).
  split; [now apply redact_headers_spec|].
  rewrite redact_headers_spec by (now rewrite redact_entry_keys).
  rewrite header_claims_redacted, map_map.
  f_equal. f_equal. apply map_ext. apply redact_entry_idempotent.
Qed.

Lemma redact_headers_idempotent_witness :
  exists redactedHeaders jwtClaims,
    @redact_headers reference_runtime
      [("authorization", example_token); ("accept", "*/*")]
    = Normal (redactedHeaders, jwtClaims)
    /\ @redact_headers reference_runtime redactedHeaders
       = Normal (redactedHeaders, []).
Proof.
  apply (@redact_headers_idempotent reference_runtime).
  simpl. repeat constructor; simpl; intuition discriminate.
Defined.

(** X4.  The claims the redactor extracts are all named [token.<claim>], and
    there are none unless some header whose name contains [authorization]
    has a non-empty value: other sensitive headers ([cookie], [set-cookie],
    [x-api-key], ...) are redacted without being read as tokens. *)
Theorem redact_headers_claims_origin {R : Runtime} (headers : Headers) :
  NoDup (obj_keys headers) ->
  exists redactedHeaders jwtClaims,
    redact_headers headers = Normal (redactedHeaders, jwtClaims)
    /\ (forall name, In name (obj_keys jwtClaims) ->
                     exists claim, name = ("token." ++ claim)%string)
    /\ ((forall key value, In (key, value) headers ->
           includes (toLowerCase key) "authorization" = false \/ value = "") ->
        jwtClaims = []).
Proof.
  intros Hnd. exists (map redact_entry headers), (fold_left header_claims headers []).
  split; [now apply redact_headers_spec|]. split.
  - intros name Hin.
    pose proof (header_claims_names headers [] (Forall_nil _)) as Hnames.
    apply (proj1 (Forall_forall _ _) Hnames) in Hin.
    now apply startsWith_split.
  - intros Hno. now apply header_claims_without_authorization.
Qed.

Lemma redact_headers_claims_origin_witness :
  exists redactedHeaders,
    @redact_headers reference_runtime
      [("set-cookie", example_token); ("x-api-key", example_token)]
    = Normal (redactedHeaders, []).
Proof.
  destruct (@redact_headers_claims_origin reference_runtime
              [("set-cookie", example_token); ("x-api-key", example_token)])
    as (redactedHeaders & jwtClaims & Hrun & _ & Hnone).
  - simpl. repeat constructor; simpl; intuition discriminate.
  - exists redactedHeaders. rewrite Hrun. f_equal. f_equal. apply Hnone.
    intros key value [Heq|[Heq|[]]]; injection Heq as <- <-; now left.
Defined.

(** ** Token segments *)

Lemma split_dot_length s : length (split_dot s) = S (count_dots s).
Proof.
  induction s as [|c s IH]; simpl; [reflexivity|].
  destruct (Ascii.eqb c "."); simpl; [now rewrite IH|].
  destruct (split_dot s) as [|hd tl] eqn:E; [now apply split_dot_nonempty in E|].
  exact IH.
Qed.

Lemma count_dots_app a b : count_dots (a ++ b) = count_dots a + count_dots b.
Proof. induction a as [|c a IH]; simpl; [reflexivity|]. rewrite IH. lia. Qed.

Lemma count_dots_dot_free a : dot_free a = true -> count_dots a = 0.
Proof.
  induction a as [|c a IH]; simpl; [reflexivity|]. intros H.
  apply andb_true_iff in H as [Hc Ha]. apply negb_true_iff in Hc.
  now rewrite Hc, (IH Ha).
Qed.

Section TokenSegments.
Context {R : Runtime}.

(** With exactly two dots, the middle segment alone decides the result. *)
Lemma parseJWTClaims_middle token :
  count_dots token = 2 ->
  parseJWTClaims token
  = try_catch (JSON_parse (decode_segment (nth 1 (split_dot token) "")))
              (fun _ => Normal VNull).
Proof.
  intros Hdots.
  destruct (split_dot_strip_bearer token) as [Htl Hlen].
  rewrite (split_dot_length token), Hdots in Hlen.
  destruct (split_dot (strip_bearer token)) as [|a [|p [|c [|]]]] eqn:E;
    try discriminate Hlen.
  rewrite (parseJWTClaims_segments token a p c E).
  destruct (split_dot token) as [|a' t']; simpl in Htl; [discriminate Htl|].
  subst t'. reflexivity.
Qed.

End TokenSegments.

(** X5.  [parseJWTClaims] returns null for every token that does not contain
    exactly two dots, whether or not it starts with a [Bearer] prefix; with
    exactly two dots the result is the parse of the decoded middle segment,
    or null when that fails. *)
Theorem parseJWTClaims_two_dots {R : Runtime} (token : string) :
  (count_dots token <> 2 -> parseJWTClaims token = Normal VNull)
  /\ (count_dots token = 2 ->
      parseJWTClaims token
      = match JSON_parse (decode_segment (nth 1 (split_dot token) "")) with
        | Normal claims => Normal claims
        | Throw _ => Normal VNull
        end).
Proof.
  split.
  - intros Hdots. apply parseJWTClaims_wrong_arity.
    destruct (split_dot_strip_bearer token) as [_ ->].
    rewrite (split_dot_length token). lia.
  - intros Hdots. now rewrite (parseJWTClaims_middle token Hdots).
Qed.

Lemma parseJWTClaims_two_dots_witness :
  @parseJWTClaims reference_runtime "Bearer a.b.c.d.e" = Normal VNull
  /\ @parseJWTClaims reference_runtime "Bearer x.MTI.y" = Normal (VNum (inject_Z 12)).
Proof.
  split.
  - apply (proj1 (@parseJWTClaims_two_dots reference_runtime "Bearer a.b.c.d.e")).
    vm_compute. discriminate.
  - rewrite (proj2 (@parseJWTClaims_two_dots reference_runtime "Bearer x.MTI.y"));
      vm_compute; reflexivity.
Defined.

(** X6.  The first and the last segment of a token are never looked at: two
    tokens with the same middle segment give the same claims, whatever their
    header and signature segments, so no signature is verified. *)
Theorem parseJWTClaims_ignores_signature
  {R : Runtime} (header signature header' signature' payload : string) :
  dot_free header = true -> dot_free signature = true ->
  dot_free header' = true -> dot_free signature' = true ->
  dot_free payload = true ->
  parseJWTClaims (header ++ "." ++ payload ++ "." ++ signature)
  = parseJWTClaims (header' ++ "." ++ payload ++ "." ++ signature')
  /\ parseJWTClaims ("Bearer " ++ header ++ "." ++ payload ++ "." ++ signature)
     = parseJWTClaims (header' ++ "." ++ payload ++ "." ++ signature').
Proof.
  intros Hh Hs Hh' Hs' Hp.
  assert (Hshape : forall a c, dot_free a = true -> dot_free c = true ->
            parseJWTClaims (a ++ "." ++ payload ++ "." ++ c)
            = try_catch (JSON_parse (decode_segment payload))
                        (fun _ => Normal VNull)).
  { intros a c Ha Hc. rewrite parseJWTClaims_middle.
    - now rewrite (split_dot_three a payload c Ha Hp Hc).
    - rewrite !count_dots_app. simpl.
      rewrite (count_dots_dot_free a Ha), (count_dots_dot_free payload Hp),
        (count_dots_dot_free c Hc). reflexivity. }
  split.
  - now rewrite !Hshape.
  - rewrite <- string_app_assoc. rewrite !Hshape; auto.
Qed.

Lemma parseJWTClaims_ignores_signature_witness :
  @parseJWTClaims reference_runtime "aaa.eyJzdWIiOiJ1MSIsImFkbWluIjp0cnVlfQ.sss"
  = @parseJWTClaims reference_runtime "eyJhbGciOiJub25lIn0.eyJzdWIiOiJ1MSIsImFkbWluIjp0cnVlfQ."
  /\ @parseJWTClaims reference_runtime example_token
     = @parseJWTClaims reference_runtime "eyJhbGciOiJub25lIn0.eyJzdWIiOiJ1MSIsImFkbWluIjp0cnVlfQ.".
Proof.
  apply (@parseJWTClaims_ignores_signature reference_runtime
           "aaa" "sss" "eyJhbGciOiJub25lIn0" ""
           "eyJzdWIiOiJ1MSIsImFkbWluIjp0cnVlfQ");
    reflexivity.
Defined.

(** ** The text given to the base64 decoder *)

Lemma replace_char_length a b s :
  String.length (replace_char a b s) = String.length s.
Proof. induction s; simpl; congruence. Qed.

Lemma string_app_length (a b : string) :
  String.length (a ++ b) = String.length a + String.length b.
Proof. induction a; simpl; congruence. Qed.

Lemma repeat_char_length c n : String.length (repeat_char c n) = n.
Proof. induction n; simpl; congruence. Qed.

Lemma replace_char_removes a b s :
  a <> b -> contains_char a (replace_char a b s) = false.
Proof.
  intros Hab. induction s as [|c s IH]; simpl; [reflexivity|].
  rewrite IH, orb_false_r.
  destruct (Ascii.eqb_spec c a) as [->|Hc].
  - apply Ascii.eqb_neq. congruence.
  - now apply Ascii.eqb_neq.
Qed.

Lemma replace_char_keeps_absent c a b s :
  c <> b -> contains_char c s = false ->
  contains_char c (replace_char a b s) = false.
Proof.
  intros Hcb. induction s as [|d s IH]; simpl; [reflexivity|]. intros H.
  apply orb_false_iff in H as [Hd Hs]. rewrite (IH Hs), orb_false_r.
  destruct (Ascii.eqb d a); [|exact Hd].
  apply Ascii.eqb_neq. congruence.
Qed.

Lemma replace_char_absent a b s :
  contains_char a s = false -> replace_char a b s = s.
Proof.
  induction s as [|c s IH]; simpl; [reflexivity|]. intros H.
  apply orb_false_iff in H as [Hc Hs]. now rewrite Hc, (IH Hs).
Qed.

Lemma padding_completes n : (n + (4 - n mod 4) mod 4) mod 4 = 0.
Proof.
  pose proof (Nat.div_mod_eq n 4) as Hn.
  pose proof (Nat.mod_upper_bound n 4 ltac:(discriminate)) as Hlt.
  destruct (n mod 4) as [|[|[|[|k]]]] eqn:E; try lia; simpl (_ - _);
    rewrite Hn at 1.
  - change (0 mod 4) with 0. rewrite Nat.add_0_r, Nat.add_0_r, Nat.mul_comm.
    apply Nat.Div0.mod_mul.
  - change (3 mod 4) with 3.
    replace (4 * (n / 4) + 1 + 3) with ((n / 4 + 1) * 4) by lia.
    apply Nat.Div0.mod_mul.
  - change (2 mod 4) with 2.
    replace (4 * (n / 4) + 2 + 2) with ((n / 4 + 1) * 4) by lia.
    apply Nat.Div0.mod_mul.
  - change (1 mod 4) with 1.
    replace (4 * (n / 4) + 3 + 1) with ((n / 4 + 1) * 4) by lia.
    apply Nat.Div0.mod_mul.
Qed.

(** X7.  Whatever the middle segment, the text [parseJWTClaims] gives to the
    base64 decoder has a length that is a multiple of 4, extends the segment
    by at most three characters, and contains neither [-] nor [_]; a segment
    that is already padded standard base64 is passed on as it is. *)
Theorem standard_base64_normalizes {R : Runtime} (payload : string) :
  decode_segment payload = base64_to_utf8 (standard_base64 payload)
  /\ String.length (standard_base64 payload) mod 4 = 0
  /\ String.length payload <= String.length (standard_base64 payload)
     < String.length payload + 4
  /\ contains_char "-" (standard_base64 payload) = false
  /\ contains_char "_" (standard_base64 payload) = false
  /\ (String.length payload mod 4 = 0 ->
      contains_char "-" payload = false ->
      contains_char "_" payload = false ->
      standard_base64 payload = payload).
Proof.
  unfold standard_base64.
  assert (Hlen : String.length
                   (replace_char "_" "/"
                      (replace_char "-" "+"
                         (payload ++ repeat_char "="
                                       ((4 - String.length payload mod 4) mod 4))))
                 = String.length payload
                   + (4 - String.length payload mod 4) mod 4).
  { now rewrite !replace_char_length, string_app_length, repeat_char_length. }
  split; [reflexivity|]. split; [rewrite Hlen; apply padding_completes|].
  split.
  { rewrite Hlen.
    pose proof (Nat.mod_upper_bound (4 - String.length payload mod 4) 4
                  ltac:(discriminate)). lia. }
  split.
  { apply replace_char_keeps_absent; [discriminate|].
    apply replace_char_removes. discriminate. }
  split.
  { apply replace_char_removes. discriminate. }
  intros Hmod Hdash Hunder. rewrite Hmod. simpl repeat_char.
  rewrite string_app_nil_r, (replace_char_absent "-" "+" payload Hdash).
  now apply replace_char_absent.
Qed.

Lemma standard_base64_normalizes_witness :
  standard_base64 "eyJhIjoxfQ==" = "eyJhIjoxfQ=="
  /\ standard_base64 "a-b_c" = "a+b/c===".
Proof.
  split.
  - apply (proj2 (proj2 (proj2 (proj2 (proj2
             (@standard_base64_normalizes reference_runtime "eyJhIjoxfQ=="))))));
      reflexivity.
  - reflexivity.
Defined.

(** ** More on body capture *)

Lemma take_length n : forall s, String.length (take n s) = Nat.min n (String.length s).
Proof.
  induction n as [|n IH]; intros [|c s]; simpl; try reflexivity.
  now rewrite IH.
Qed.

Lemma take_prefix n : forall s, exists rest, s = (take n s ++ rest)%string.
Proof.
  induction n as [|n IH]; intros s.
  - exists s. now destruct s.
  - destruct s as [|c s]; [now exists ""|].
    destruct (IH s) as [rest Hrest]. exists rest. simpl. now rewrite <- Hrest.
Qed.

(** X8.  When neither early exit applies, [captureResponseBody] reads the
    body of the handle it is given (the handle is used afterwards).  A text
    longer than [maxBodySize] gives a truncation marker with the real length
    and a preview that is the first [min 100 length] characters of the text,
    whatever [maxBodySize] is; a text within the bound goes to the text
    parser with the content type of the response. *)
Theorem captureResponseBody_reads_and_bounds
  {R : Runtime} (options : Options.t) (response : Response) (text : string) :
  exceeds (parseInt10 (or_else (headers_get response "content-length") "0"))
          (Options.maxBodySize options) = false ->
  isBinaryContentType (or_else (headers_get response "content-type") "") = false ->
  bodyUsed response = false ->
  body_text response = Normal text ->
  fst (captureResponseBody options response) = mark_used response
  /\ ((Options.maxBodySize options < Z.of_nat (String.length text))%Z ->
      snd (captureResponseBody options response)
      = Normal (VObj [ ("_truncated", VBool true);
                       ("_size", VNum (inject_Z (Z.of_nat (String.length text))));
                       ("_preview", VStr (substring 0 100 text)) ])
      /\ String.length (substring 0 100 text) = Nat.min 100 (String.length text)
      /\ exists rest, text = (substring 0 100 text ++ rest)%string)
  /\ ((Z.of_nat (String.length text) <= Options.maxBodySize options)%Z ->
      snd (captureResponseBody options response)
      = parseBodyText text
          (Some (or_else (headers_get response "content-type") ""))).
Proof.
  intros Hlen Hbin Hused Hbody.
  rewrite (captureResponseBody_reads options response Hlen Hbin).
  unfold Response_text. rewrite Hused, Hbody. cbn [fst snd bindC].
  split; [reflexivity|]. split.
  - intros Hbig. apply Z.ltb_lt in Hbig. rewrite Hbig. cbn [try_catch].
    unfold truncated_with_preview, VLength. rewrite <- take_substring.
    split; [reflexivity|]. split; [apply take_length | apply take_prefix].
  - intros Hsmall. apply Z.ltb_ge in Hsmall. rewrite Hsmall.
    destruct (parseBodyText_returns text
                (Some (or_else (headers_get response "content-type") "")))
      as [v ->].
    reflexivity.
Qed.

Lemma captureResponseBody_reads_and_bounds_witness :
  @captureResponseBody reference_runtime tiny_options (chunked_response "hello")
  = (mark_used (chunked_response "hello"),
     Normal (VObj [ ("_truncated", VBool true);
                    ("_size", VNum (inject_Z 5));
                    ("_preview", VStr "hello") ]))
  /\ snd (@captureResponseBody reference_runtime tiny_options (chunked_response "hi"))
     = @parseBodyText reference_runtime "hi" (Some "text/plain").
Proof.
  destruct (@captureResponseBody_reads_and_bounds reference_runtime tiny_options
              (chunked_response "hello") "hello")
    as (Hused & Hlong & _); try reflexivity.
  destruct (@captureResponseBody_reads_and_bounds reference_runtime tiny_options
              (chunked_response "hi") "hi")
    as (_ & _ & Hshort); try reflexivity.
  split.
  - rewrite (surjective_pairing (captureResponseBody tiny_options
                                   (chunked_response "hello"))).
    rewrite Hused. rewrite (proj1 (Hlong ltac:(vm_compute; reflexivity))).
    reflexivity.
  - apply Hshort. vm_compute. discriminate.
Defined.

(** X9.  A response without a [content-length] header, or with one that does
    not start with a number, never leaves through the declared-size exit
    (for a non-negative [maxBodySize]): if its content type is not binary
    its body is read, and if it is binary the marker records the size 0,
    respectively NaN. *)
Theorem captureResponseBody_undeclared_length
  {R : Runtime} (options : Options.t) (response : Response) :
  (0 <= Options.maxBodySize options)%Z ->
  headers_get response "content-length" = None
  \/ (exists lengthText, headers_get response "content-length" = Some lengthText
                         /\ lengthText <> "" /\ parseInt10 lengthText = None) ->
  bodyUsed response = false ->
  (isBinaryContentType (or_else (headers_get response "content-type") "") = false ->
   fst (captureResponseBody options response) = mark_used response)
  /\ (isBinaryContentType (or_else (headers_get response "content-type") "") = true ->
      captureResponseBody options response
      = (response,
         Normal (VObj [ ("_type", VStr "Binary");
                        ("_contentType",
                         VStr (or_else (headers_get response "content-type") ""));
                        ("_size",
                         match headers_get response "content-length" with
                         | None => VNum (inject_Z 0)
                         | Some _ => VNaN
                         end);
                        ("_note", VStr "Binary content not captured") ]))).
Proof.
  intros Hmax Hheader Hused.
  assert (Hlen : exceeds (parseInt10
                            (or_else (headers_get response "content-length") "0"))
                         (Options.maxBodySize options) = false
                 /\ number_value (parseInt10
                            (or_else (headers_get response "content-length") "0"))
                    = match headers_get response "content-length" with
                      | None => VNum (inject_Z 0)
                      | Some _ => VNaN
                      end).
  { destruct Hheader as [-> | (lengthText & -> & Hne & Hnan)].
    - split; [|reflexivity]. simpl. apply Z.ltb_ge. exact Hmax.
    - rewrite (or_else_present _ _ Hne), Hnan. split; reflexivity. }
  destruct Hlen as [Hlen Hsize]. split.
  - intros Hbin. rewrite (captureResponseBody_reads options response Hlen Hbin).
    unfold Response_text. now rewrite Hused.
  - intros Hbin. unfold captureResponseBody. rewrite Hlen, Hbin, Hsize. reflexivity.
Qed.

Lemma captureResponseBody_undeclared_length_witness :
  fst (@captureResponseBody reference_runtime default_options (chunked_response "hi"))
  = mark_used (chunked_response "hi").
Proof.
  apply (proj1 (@captureResponseBody_undeclared_length reference_runtime
                  default_options (chunked_response "hi")
                  ltac:(vm_compute; discriminate)
                  (or_introl eq_refl) eq_refl)).
  reflexivity.
Defined.

Lemma filter_none {A} (p : A -> bool) (l : list A) :
  (forall x, In x l -> p x = false) -> filter p l = [].
Proof.
  induction l as [|x l IH]; intros H; simpl; [reflexivity|].
  rewrite (H x (or_introl eq_refl)). apply IH. intros y Hy. apply H. now right.
Qed.

(** X10.  A buffer without control bytes (tab, newline and carriage return
    apart), the empty buffer included, is never classified as binary: an
    [ArrayBuffer] or [Uint8Array] body of this kind is decoded and given to
    the text parser whole, whatever [maxBodySize] is; no truncation applies
    to buffer bodies. *)
Theorem captureRequestBody_text_buffer
  {R : Runtime} (bytes : list byte) :
  (forall b, In b bytes -> is_control_byte b = false) ->
  isBinary bytes = false
  /\ forall options headers byteOffset byteLength,
       captureRequestBody options (BodyArrayBuffer bytes) headers
       = parseBodyText (TextDecoder_decode bytes) (getContentType headers)
       /\ captureRequestBody options (BodyUint8Array bytes byteOffset byteLength)
                             headers
          = parseBodyText (TextDecoder_decode bytes) (getContentType headers).
Proof.
  intros Htext.
  assert (Hbin : isBinary bytes = false).
  { destruct bytes as [|b bytes]; [reflexivity|].
    rewrite isBinary_exact by discriminate.
    rewrite (filter_none _ _ Htext). reflexivity. }
  split; [exact Hbin|].
  intros options headers byteOffset byteLength.
  unfold captureRequestBody. rewrite Hbin.
  destruct (parseBodyText_returns (TextDecoder_decode bytes)
              (getContentType headers)) as [v ->].
  split; reflexivity.
Qed.

Lemma captureRequestBody_text_buffer_witness :
  isBinary text_bytes = false
  /\ @captureRequestBody reference_runtime tiny_options (BodyArrayBuffer text_bytes)
       None
     = @parseBodyText reference_runtime
         (@TextDecoder_decode reference_runtime text_bytes) None.
Proof.
  destruct (@captureRequestBody_text_buffer reference_runtime text_bytes)
    as (Hbin & Hcapture).
  - intros b Hin. simpl in Hin.
    repeat (destruct Hin as [<-|Hin]; [reflexivity|]). contradiction.
  - split; [exact Hbin|]. apply (Hcapture tiny_options None 0 0).
Defined.

Lemma of_strings_get (o : list (string * string)) k :
  obj_get (of_strings o) k = option_map VStr (obj_get o k).
Proof.
  induction o as [|[k' v] o IH]; simpl; [reflexivity|].
  now destruct (String.eqb k' k).
Qed.

(** X11.  A [URLSearchParams] body is captured as an object with one
    property per distinct parameter name other than [__proto__], holding the
    value of the last parameter of that name; a parameter named [__proto__]
    leaves no property; the declared content type plays no part. *)
Theorem captureRequestBody_search_params
  {R : Runtime} (options : Options.t) (entries : list (string * string))
  (headers : option HeadersInit) :
  exists props,
    captureRequestBody options (BodyURLSearchParams entries) headers
    = Normal (VObj props)
    /\ NoDup (obj_keys props)
    /\ (forall name, In name (obj_keys props)
                     <-> In name (map fst entries) /\ name <> "__proto__")
    /\ (forall pre name value post,
          entries = pre ++ (name, value) :: post ->
          name <> "__proto__" ->
          (forall v, ~ In (name, v) post) ->
          obj_get props name = Some (VStr value))
    /\ obj_get props "__proto__" = None.
Proof.
  exists (of_strings (obj_assign_all entries)).
  split; [reflexivity|].
  assert (Hkeys : obj_keys (of_strings (obj_assign_all entries))
                  = obj_keys (obj_assign_all entries)).
  { apply of_strings_names. }
  assert (Hfold : obj_assign_all entries
                  = fold_left (fun o kv => obj_set o (fst kv) (snd kv))
                              (own_entries entries) []).
  { unfold obj_assign_all, own_entries. apply (fold_obj_assign_filter fst snd). }
  assert (Hiff : forall name, In name (obj_keys (obj_assign_all entries))
                   <-> In name (map fst entries) /\ name <> "__proto__").
  { intros name. rewrite Hfold. split.
    - intros Hin. apply (fold_obj_set_keys fst snd) in Hin as [[]|(x & Hx & <-)].
      apply filter_In in Hx as [Hx Hown]. split; [now apply in_map|].
      intros Heq. rewrite Heq in Hown. discriminate Hown.
    - intros [Hin Hown]. apply in_map_iff in Hin as (x & <- & Hin).
      apply (fold_obj_set_keys_complete fst snd). right. exists x.
      split; [|reflexivity]. apply filter_In. split; [exact Hin|].
      destruct (String.eqb_spec (fst x) "__proto__"); [contradiction|reflexivity]. }
  split; [|split; [|split]].
  - rewrite Hkeys, Hfold. apply (fold_obj_set_NoDup fst snd). constructor.
  - intros name. rewrite Hkeys. apply Hiff.
  - intros pre name value post -> Hown Hlast.
    rewrite of_strings_get, Hfold. unfold own_entries.
    rewrite filter_app. cbn [filter fst].
    destruct (String.eqb_spec name "__proto__") as [Heq|_]; [contradiction|].
    cbn [negb].
    pose proof (fold_obj_set_get_last fst snd
                  (filter (fun kv => negb (String.eqb (fst kv) "__proto__")) pre)
                  (name, value)
                  (filter (fun kv => negb (String.eqb (fst kv) "__proto__")) post)
                  []) as Hget.
    cbn [fst snd] in Hget. rewrite Hget; [reflexivity|].
    intros [k v] Hin Heq. simpl in Heq. subst k.
    apply filter_In in Hin as [Hin _]. exact (Hlast v Hin).
  - apply obj_get_absent. rewrite Hkeys. intros Hin.
    apply Hiff in Hin as [_ Hne]. now apply Hne.
Qed.

Lemma captureRequestBody_search_params_witness :
  exists props,
    @captureRequestBody reference_runtime default_options
      (BodyURLSearchParams [("a", "1"); ("b", "2"); ("a", "3")]) json_headers
    = Normal (VObj props)
    /\ obj_get props "a" = Some (VStr "3").
Proof.
  destruct (@captureRequestBody_search_params reference_runtime default_options
              [("a", "1"); ("b", "2"); ("a", "3")] json_headers)
    as (props & Hrun & _ & _ & Hlast & _).
  exists props. split; [exact Hrun|].
  apply (Hlast [("a", "1"); ("b", "2")] "a" "3" []);
    [reflexivity | discriminate | intros v []].
Defined.

(** ** More on the orchestrator *)

Lemma string_app_inv_head (a x y : string) :
  (a ++ x)%string = (a ++ y)%string -> x = y.
Proof. induction a as [|c a IH]; simpl; intros H; [exact H|]. injection H as H. auto. Qed.

Section SpanContents.
Context {R : Runtime}.

(** In the attributes made from a header object, the attribute of a
    sensitive header holds the sentinel. *)
Lemma header_attributes_redacted side headers key value :
  In ((side ++ ".headers." ++ key)%string, value) (header_attributes side headers) ->
  ~ token_named (side ++ ".headers." ++ key) ->
  is_sensitive (toLowerCase key) = true ->
  value = VStr REDACTED.
Proof.
  unfold header_attributes. intros Hin Hname Hsens.
  apply in_app_or in Hin as [Hin|Hin].
  - unfold flatten_headers in Hin.
    destruct (map redact_entry headers) as [|e l] eqn:E.
    + destruct Hin as [Heq|[]]. injection Heq as Heq _.
      apply string_app_inv_head in Heq. discriminate Heq.
    + rewrite <- E in Hin. clear E e l.
      apply in_map_iff in Hin as ([k v] & Heq & Hin).
      injection Heq as Hk <-. cbn [fst snd] in *.
      apply string_app_inv_head in Hk. injection Hk as ->.
      apply in_map_iff in Hin as ([k0 v0] & Heq & _).
      unfold redact_entry in Heq. cbn [fst snd] in Heq.
      injection Heq as -> <-. now rewrite Hsens.
  - exfalso. apply Hname.
    assert (Hkey : In (side ++ ".headers." ++ key)%string
                      (obj_keys (fold_left header_claims headers []))).
    { rewrite <- of_strings_names.
      change (In (fst ((side ++ ".headers." ++ key)%string, value))
                 (map fst (of_strings (fold_left header_claims headers [])))).
      now apply in_map. }
    exact (proj1 (Forall_forall _ _)
                 (header_claims_names headers [] (Forall_nil _)) _ Hkey).
Qed.

Lemma header_attributes_side side side' headers key value :
  side = "request" \/ side = "response" ->
  side' = "request" \/ side' = "response" ->
  In ((side ++ ".headers." ++ key)%string, value) (header_attributes side' headers) ->
  is_sensitive (toLowerCase key) = true ->
  value = VStr REDACTED.
Proof.
  intros Hside Hside' Hin Hsens.
  assert (Hnames : In (side ++ ".headers." ++ key)%string
                      (map fst (header_attributes side' headers))).
  { change (In (fst ((side ++ ".headers." ++ key)%string, value))
               (map fst (header_attributes side' headers))).
    now apply in_map. }
  apply header_attributes_names in Hnames.
  destruct Hside as [-> | ->], Hside' as [-> | ->], Hnames as [Hn|Hn];
    try discriminate Hn.
  - apply (header_attributes_redacted "request" headers key value Hin);
      [discriminate | exact Hsens].
  - apply (header_attributes_redacted "response" headers key value Hin);
      [discriminate | exact Hsens].
Qed.

End SpanContents.

(** X12.  No value of a sensitive header reaches the span: whenever an
    attribute [request.headers.<name>] or [response.headers.<name>] is
    recorded for a name containing a denylisted word, its value is
    [[REDACTED]]. *)
Theorem span_never_holds_sensitive_header
  {R : Runtime} (options : Options.t) (originalFetch : Transport)
  (input : FetchInput) (init : option RequestInit) (span : Span)
  (outcome : Completion Response) :
  interceptFetch options originalFetch input init = (Some span, outcome) ->
  forall side name value,
    side = "request" \/ side = "response" ->
    In ((side ++ ".headers." ++ name)%string, value) (attributes span) ->
    is_sensitive (toLowerCase name) = true ->
    value = VStr "[REDACTED]".
Proof.
  intros Hrun side name value Hside Hin Hsens.
  destruct (interceptFetch_attributes _ _ _ _ _ _ Hrun) as [location Hattrs].
  rewrite Hattrs in Hin. clear Hattrs Hrun.
  apply in_app_or in Hin as [Hin|Hin].
  { exfalso. destruct Hside as [-> | ->]; simpl in Hin;
      repeat (destruct Hin as [Hin|Hin]; [discriminate Hin|]); exact Hin. }
  apply in_app_or in Hin as [Hin|Hin].
  { unfold request_header_attributes in Hin.
    destruct init as [[m [h|] b]|]; try contradiction.
    destruct (Options.captureHeaders options); [|contradiction].
    eapply (header_attributes_side side "request"); eauto. }
  apply in_app_or in Hin as [Hin|Hin].
  { exfalso. unfold request_body_attributes in Hin.
    destruct init as [[m h [body|]]|]; try contradiction.
    destruct (_ && _); [|contradiction].
    unfold body_attributes in Hin. destruct (truthy _); [|contradiction].
    destruct Hside as [-> | ->]; destruct Hin as [Hin|[]]; discriminate Hin. }
  unfold response_attributes in Hin.
  destruct (originalFetch input init) as [response|e]; [|contradiction].
  apply in_app_or in Hin as [Hin|Hin].
  - unfold response_head_attributes in Hin.
    apply in_app_or in Hin as [Hin|Hin].
    + exfalso. destruct Hside as [-> | ->]; simpl in Hin;
        repeat (destruct Hin as [Hin|Hin]; [discriminate Hin|]); exact Hin.
    + destruct (Options.captureHeaders options); [|contradiction].
      eapply (header_attributes_side side "response"); eauto.
  - exfalso. destruct (Options.captureResponseBody options); [|contradiction].
    destruct (Response_clone response); [|contradiction].
    unfold body_attributes in Hin. destruct (truthy _); [|contradiction].
    destruct Hside as [-> | ->]; destruct Hin as [Hin|[]]; discriminate Hin.
Qed.

Lemma span_never_holds_sensitive_header_witness :
  exists span outcome,
    @interceptFetch reference_runtime default_options (answering_transport "{}")
      example_input token_init = (Some span, outcome)
    /\ In "request.headers.x-api-key" (map fst (attributes span))
    /\ forall value,
         In ("request.headers.x-api-key", value) (attributes span) ->
         value = VStr "[REDACTED]".
Proof.
  destruct (@interceptFetch reference_runtime default_options
              (answering_transport "{}") example_input token_init)
    as [[span|] outcome] eqn:Hrun; [|vm_compute in Hrun; discriminate].
  exists span, outcome. split; [reflexivity|]. split.
  - vm_compute in Hrun. injection Hrun as <- _. simpl. tauto.
  - intros value Hin.
    apply (@span_never_holds_sensitive_header reference_runtime _ _ _ _ _ _ Hrun
             "request" "x-api-key" value);
      [now left | exact Hin | reflexivity].
Defined.

(** X13.  With header capture disabled the span receives no header and no
    claim attribute: no attribute name starts with [request.headers],
    [response.headers] or [token.]. *)
Theorem no_header_attributes_when_disabled
  {R : Runtime} (options : Options.t) (originalFetch : Transport)
  (input : FetchInput) (init : option RequestInit) (span : Span)
  (outcome : Completion Response) :
  Options.captureHeaders options = false ->
  interceptFetch options originalFetch input init = (Some span, outcome) ->
  forall name, In name (map fst (attributes span)) ->
    startsWith "request.headers" name = false
    /\ startsWith "response.headers" name = false
    /\ startsWith "token." name = false.
Proof.
  intros Hoff Hrun name Hin.
  destruct (interceptFetch_attributes _ _ _ _ _ _ Hrun) as [location Hattrs].
  rewrite Hattrs, !map_app, !in_app_iff in Hin. clear Hattrs Hrun.
  assert (Hfixed : forall names,
            In name names ->
            Forall (fun n => startsWith "request.headers" n = false
                             /\ startsWith "response.headers" n = false
                             /\ startsWith "token." n = false) names ->
            startsWith "request.headers" name = false
            /\ startsWith "response.headers" name = false
            /\ startsWith "token." name = false).
  { intros names Hn Hall. exact (proj1 (Forall_forall _ _) Hall name Hn). }
  destruct Hin as [Hin|[Hin|[Hin|Hin]]].
  - apply (Hfixed _ Hin). simpl. repeat constructor.
  - exfalso. unfold request_header_attributes in Hin. rewrite Hoff in Hin.
    now destruct init as [[m [h|] b]|].
  - apply request_body_attributes_names in Hin as [-> _]. repeat split.
  - unfold response_attributes in Hin.
    destruct (originalFetch input init) as [response|e]; [|contradiction].
    rewrite map_app, in_app_iff in Hin. destruct Hin as [Hin|Hin].
    + unfold response_head_attributes in Hin. rewrite Hoff, app_nil_r in Hin.
      apply (Hfixed _ Hin). simpl. repeat constructor.
    + destruct (Options.captureResponseBody options); [|contradiction].
      destruct (Response_clone response); [|contradiction].
      apply body_attributes_names in Hin as [-> _]. repeat split.
Qed.

Lemma no_header_attributes_when_disabled_witness :
  exists span outcome,
    @interceptFetch reference_runtime no_header_options (answering_transport "{}")
      example_input token_init = (Some span, outcome)
    /\ ~ In "request.headers.authorization" (map fst (attributes span))
    /\ ~ In "token.sub" (map fst (attributes span)).
Proof.
  destruct (@interceptFetch reference_runtime no_header_options
              (answering_transport "{}") example_input token_init)
    as [[span|] outcome] eqn:Hrun; [|vm_compute in Hrun; discriminate].
  exists span, outcome. split; [reflexivity|].
  pose proof (@no_header_attributes_when_disabled reference_runtime
                no_header_options (answering_transport "{}") example_input
                token_init span outcome eq_refl Hrun) as Hnone.
  split; intros Hin; apply Hnone in Hin; destruct Hin as (H1 & H2 & H3);
    discriminate.
Defined.



(** X15.  For a call whose request body, if any, is one the capture
    converts (not a value of an unrecognised kind, which is handed back as
    it is and then has to be serialized), what the caller gets, and how the
    span ends, do not depend on the capture settings for headers and
    request bodies nor on [maxBodySize]: two interceptors that agree on
    [captureResponseBody] return the same outcome and leave the same status
    and end count on the span. *)
Theorem capture_settings_do_not_change_the_call
  {R : Runtime} (options options' : Options.t) (originalFetch : Transport)
  (input : FetchInput) (init : option RequestInit) :
  request_body_converted init = true ->
  Options.captureResponseBody options = Options.captureResponseBody options' ->
  snd (interceptFetch options originalFetch input init)
  = snd (interceptFetch options' originalFetch input init)
  /\ option_map span_status (fst (interceptFetch options originalFetch input init))
     = option_map span_status (fst (interceptFetch options' originalFetch input init))
  /\ option_map end_count (fst (interceptFetch options originalFetch input init))
     = option_map end_count (fst (interceptFetch options' originalFetch input init)).
Proof.
  intros _ Hsame. rewrite !interceptFetch_run.
  destruct (URL_parse (input_url input)) as [location|e]; [|repeat split].
  rewrite !traced_call_run. cbv zeta. cbn [fst snd].
  destruct (originalFetch input init) as [response|e]; [|repeat split].
  rewrite <- Hsame.
  destruct (Options.captureResponseBody options); [|repeat split].
  destruct (Response_clone response); repeat split.
Qed.

Lemma capture_settings_do_not_change_the_call_witness :
  snd (@interceptFetch reference_runtime default_options (answering_transport "{}")
         example_input token_init)
  = snd (@interceptFetch reference_runtime tiny_options (answering_transport "{}")
           example_input token_init).
Proof.
  apply (proj1 (@capture_settings_do_not_change_the_call reference_runtime
                  default_options tiny_options (answering_transport "{}")
                  example_input token_init eq_refl eq_refl)).
Defined.

(** X16.  A non-empty string body within the size bound, sent with a
    content type that contains [text/] (and neither [application/json] nor
    [application/x-www-form-urlencoded]), is recorded verbatim as the
    [request.body] attribute, even when the text happens to be valid JSON. *)
Theorem text_body_recorded_verbatim
  {R : Runtime} (options : Options.t) (originalFetch : Transport)
  (input : FetchInput) (i : RequestInit) (body contentType : string)
  (span : Span) (outcome : Completion Response) :
  Options.captureRequestBody options = true ->
  init_body i = Some (BodyString body) ->
  body <> "" ->
  (Z.of_nat (String.length body) <= Options.maxBodySize options)%Z ->
  getContentType (init_headers i) = Some contentType ->
  includes (toLowerCase contentType) "application/json" = false ->
  includes (toLowerCase contentType) "application/x-www-form-urlencoded" = false ->
  includes (toLowerCase contentType) "text/" = true ->
  interceptFetch options originalFetch input (Some i) = (Some span, outcome) ->
  In ("request.body", VStr body) (attributes span).
Proof.
  intros Hopt Hbody Hne Hsize Hct Hjson Hform Htext Hrun.
  destruct (interceptFetch_attributes _ _ _ _ _ _ Hrun) as [location Hattrs].
  rewrite Hattrs. apply in_or_app. right. apply in_or_app. right.
  apply in_or_app. left.
  unfold request_body_attributes. destruct i as [m h b]. cbn [init_body init_headers] in *.
  subst b. rewrite Hopt. cbn [body_present andb].
  apply String.eqb_neq in Hne. rewrite Hne. cbn [negb].
  unfold request_outcome. apply Z.ltb_ge in Hsize. rewrite Hsize, Hct.
  unfold text_outcome.
  destruct contentType as [|c ct]; [discriminate Htext|].
  rewrite Hjson, Hform, Htext. cbn [render].
  unfold body_attributes. cbn [truthy]. rewrite Hne. now left.
Qed.

Lemma text_body_recorded_verbatim_witness :
  exists span outcome,
    @interceptFetch reference_runtime default_options (answering_transport "{}")
      example_input token_init = (Some span, outcome)
    /\ In ("request.body", VStr "ping") (attributes span).
Proof.
  destruct (@interceptFetch reference_runtime default_options
              (answering_transport "{}") example_input token_init)
    as [[span|] outcome] eqn:Hrun; [|vm_compute in Hrun; discriminate].
  exists span, outcome. split; [reflexivity|].
  apply (@text_body_recorded_verbatim reference_runtime default_options
           (answering_transport "{}") example_input token_request
           "ping" "text/plain" span outcome);
    [reflexivity | reflexivity | discriminate | vm_compute; discriminate
    | reflexivity | reflexivity | reflexivity | reflexivity | exact Hrun].
Defined.

(** ** More on installation *)

(** X17.  Installing replaces whatever interceptor the module has active:
    installing twice has the effect of the second installation alone,
    uninstalling after an installation has the effect of uninstalling
    alone, and installing after uninstalling that of installing alone. *)
Theorem enable_disable_compose
  (g : Global) (options options' : FetchInterceptorOptions) :
  enableFetchBodyCapture options' (fst (enableFetchBodyCapture options g))
  = enableFetchBodyCapture options' g
  /\ disableFetchBodyCapture (fst (enableFetchBodyCapture options g))
     = disableFetchBodyCapture g
  /\ enableFetchBodyCapture options (disableFetchBodyCapture g)
     = enableFetchBodyCapture options g.
Proof.
  destruct g as [slot [prior|]]; repeat split.
Qed.

(** X18.  An interceptor constructed directly wraps whatever is in the
    transport slot, adding a layer; [restore()] on it puts back exactly what
    it wrapped.  Two such interceptors unwind to the starting state when
    restored in reverse order of creation, but restoring them in the order
    of creation leaves the first one installed again; and the module-level
    uninstall does not know about them. *)
Theorem new_FetchInterceptor_stacks
  (g : Global) (options options' : FetchInterceptorOptions) :
  let g1 := fst (new_FetchInterceptor options g) in
  let first := snd (new_FetchInterceptor options g) in
  let g2 := fst (new_FetchInterceptor options' g1) in
  let second := snd (new_FetchInterceptor options' g1) in
  restore first g1 = g
  /\ layers (globalThis_fetch g1) = S (layers (globalThis_fetch g))
  /\ layers (globalThis_fetch g2) = S (S (layers (globalThis_fetch g)))
  /\ restore first (restore second g2) = g
  /\ globalThis_fetch (restore second (restore first g2))
     = Intercepting (with_defaults options) (globalThis_fetch g)
  /\ (interceptorInstance g = None -> disableFetchBodyCapture g1 = g1).
Proof.
  destruct g as [slot instance]. cbv zeta. simpl.
  repeat split. intros ->. reflexivity.
Qed.

Lemma new_FetchInterceptor_stacks_witness :
  disableFetchBodyCapture
    (fst (new_FetchInterceptor no_options (global (initial_world failing_transport))))
  = fst (new_FetchInterceptor no_options (global (initial_world failing_transport))).
Proof.
  apply (proj2 (proj2 (proj2 (proj2 (proj2
           (new_FetchInterceptor_stacks (global (initial_world failing_transport))
              no_options no_options)))))).
  reflexivity.
Defined.

(** ** Transparency and recorded values *)

Lemma interceptFetch_transparent {R : Runtime} options originalFetch input init location :
  URL_parse (input_url input) = Normal location ->
  (forall response, originalFetch input init = Normal response ->
                    Options.captureResponseBody options = true ->
                    bodyUsed response = false) ->
  snd (interceptFetch options originalFetch input init) = originalFetch input init.
Proof.
  intros Hurl Hfresh. rewrite interceptFetch_run, Hurl, traced_call_run.
  cbv zeta. cbn [snd].
  destruct (originalFetch input init) as [response|e]; [|reflexivity].
  destruct (Options.captureResponseBody options) eqn:Hopt; [|reflexivity].
  unfold Response_clone. now rewrite (Hfresh response eq_refl eq_refl).
Qed.

(** X19.  In every state reached by installing, uninstalling and restoring
    handles, a call through the transport slot whose URL parses, and whose
    request body, if any, is one the capture converts (not a value of an
    unrecognised kind, handed back as it is), gives the caller exactly what
    the runtime's transport gives (the same response or the same
    exception), provided a returned response is unconsumed.  A call whose
    URL does not parse fails in an installed wrapper with the URL error,
    whatever the transport would have done. *)
Theorem installed_fetch_is_transparent
  {R : Runtime} (transport : Transport) (w : World)
  (input : FetchInput) (init : option RequestInit) :
  reachable transport w ->
  (forall location,
     URL_parse (input_url input) = Normal location ->
     request_body_converted init = true ->
     (forall response, transport input init = Normal response ->
                       bodyUsed response = false) ->
     call_fetch (globalThis_fetch (global w)) input init = transport input init)
  /\ (forall error options,
        URL_parse (input_url input) = Throw error ->
        globalThis_fetch (global w) = Intercepting options (Native transport) ->
        call_fetch (globalThis_fetch (global w)) input init = Throw error).
Proof.
  intros Hreach.
  destruct (reachable_singleton _ _ Hreach) as (_ & _ & Hslot & _).
  split.
  - intros location Hurl _ Hfresh.
    destruct Hslot as [-> | [options ->]]; [reflexivity|].
    cbn [call_fetch].
    apply (interceptFetch_transparent options transport input init location Hurl).
    intros response Hret _. now apply Hfresh.
  - intros error options Hurl ->. cbn [call_fetch].
    now rewrite interceptFetch_run, Hurl.
Qed.

Lemma installed_fetch_is_transparent_witness :
  @call_fetch reference_runtime (globalThis_fetch (global installed_twice))
    example_input token_init
  = failing_transport example_input token_init
  /\ @call_fetch reference_runtime (globalThis_fetch (global installed_twice))
       (InputString "/relative") None
     = Throw (ErrorObject "TypeError" "Invalid URL").
Proof.
  destruct (@installed_fetch_is_transparent reference_runtime failing_transport
              installed_twice example_input token_init installed_twice_reachable)
    as (Hsame & _).
  destruct (@installed_fetch_is_transparent reference_runtime failing_transport
              installed_twice (InputString "/relative") None
              installed_twice_reachable)
    as (_ & Hurl).
  split.
  - apply (Hsame ("https:", "api.example")); [reflexivity | reflexivity |].
    intros response Hret. discriminate Hret.
  - apply (Hurl _ default_options); reflexivity.
Defined.

(** X20.  A recorded body attribute is always a string: the capture outcome
    itself when that is a string, and its JSON text otherwise (so markers
    and parsed bodies are stored serialized).  This holds for
    [request.body], with the outcome of the request capture, and for
    [response.body], with the outcome of the capture on the cloned
    response. *)
Theorem body_attribute_value
  {R : Runtime} (options : Options.t) (originalFetch : Transport)
  (input : FetchInput) (init : option RequestInit) (span : Span)
  (outcome : Completion Response) :
  interceptFetch options originalFetch input init = (Some span, outcome) ->
  (forall value,
     In ("request.body", value) (attributes span) ->
     exists i body bodyData,
       init = Some i /\ init_body i = Some body
       /\ captureRequestBody options body (init_headers i) = Normal bodyData
       /\ value = VStr match bodyData with
                       | VStr text => text
                       | _ => JSON_stringify bodyData
                       end)
  /\ (forall value,
        In ("response.body", value) (attributes span) ->
        exists response responseClone bodyData,
          originalFetch input init = Normal response
          /\ Response_clone response = Normal responseClone
          /\ snd (captureResponseBody options responseClone) = Normal bodyData
          /\ value = VStr match bodyData with
                          | VStr text => text
                          | _ => JSON_stringify bodyData
                          end).
Proof.
  intros Hrun.
  destruct (interceptFetch_attributes _ _ _ _ _ _ Hrun) as [location Hattrs].
  rewrite Hattrs. clear Hattrs Hrun.
  assert (Hname : forall (name : string) (value : Value) l,
            In (name, value) l -> In name (map fst l)).
  { intros name value l Hin. change name with (fst (name, value)).
    now apply in_map. }
  assert (Hbody : forall name other value bodyData,
            In (other, value) (body_attributes name bodyData) ->
            other = name
            /\ value = VStr match bodyData with
                            | VStr text => text
                            | _ => JSON_stringify bodyData
                            end).
  { intros name other value bodyData Hin. unfold body_attributes in Hin.
    destruct (truthy bodyData); [|contradiction].
    destruct Hin as [Heq|[]]. injection Heq as <- <-. split; reflexivity. }
  split; intros value Hin.
  - apply in_app_or in Hin as [Hin|Hin].
    { exfalso. apply Hname in Hin. revert Hin.
      apply initial_span_no_body. now left. }
    apply in_app_or in Hin as [Hin|Hin].
    { exfalso. apply Hname in Hin. revert Hin.
      apply request_header_attributes_no_body. now left. }
    apply in_app_or in Hin as [Hin|Hin].
    + unfold request_body_attributes in Hin.
      destruct init as [[m h [body|]]|]; try contradiction.
      destruct (_ && _); [|contradiction].
      apply Hbody in Hin as [_ ->].
      eexists _, body, _. split; [reflexivity|]. cbn [init_body init_headers].
      split; [reflexivity|]. split; [apply captureRequestBody_outcome|reflexivity].
    + exfalso. apply Hname in Hin.
      apply response_attributes_names in Hin as [Hin _]; [discriminate Hin|now left].
  - apply in_app_or in Hin as [Hin|Hin].
    { exfalso. apply Hname in Hin. revert Hin.
      apply initial_span_no_body. now right. }
    apply in_app_or in Hin as [Hin|Hin].
    { exfalso. apply Hname in Hin. revert Hin.
      apply request_header_attributes_no_body. now right. }
    apply in_app_or in Hin as [Hin|Hin].
    { exfalso. apply Hname in Hin.
      apply request_body_attributes_names in Hin as [Hin _]. discriminate Hin. }
    unfold response_attributes in Hin.
    destruct (originalFetch input init) as [response|e]; [|contradiction].
    apply in_app_or in Hin as [Hin|Hin].
    + exfalso. apply Hname in Hin. unfold response_head_attributes in Hin.
      rewrite map_app, in_app_iff in Hin. destruct Hin as [Hin|Hin].
      * simpl in Hin. intuition discriminate.
      * destruct (Options.captureHeaders options); [|contradiction].
        revert Hin. apply header_attributes_no_body; auto.
    + destruct (Options.captureResponseBody options); [|contradiction].
      destruct (Response_clone response) as [responseClone|e] eqn:Hclone;
        [|contradiction].
      apply Hbody in Hin as [_ ->].
      exists response, responseClone, (render (response_outcome options responseClone)).
      split; [reflexivity|]. split; [exact Hclone|].
      split; [apply captureResponseBody_outcome|reflexivity].
Qed.

Lemma body_attribute_value_witness :
  exists span outcome,
    @interceptFetch reference_runtime tiny_options (answering_transport "{}")
      example_input token_init = (Some span, outcome)
    /\ forall value,
         In ("request.body", value) (attributes span) ->
         exists text, value = VStr text.
Proof.
  destruct (@interceptFetch reference_runtime tiny_options
              (answering_transport "{}") example_input token_init)
    as [[span|] outcome] eqn:Hrun; [|vm_compute in Hrun; discriminate].
  exists span, outcome. split; [reflexivity|].
  intros value Hin.
  destruct (proj1 (@body_attribute_value reference_runtime _ _ _ _ _ _ Hrun)
                  value Hin) as (i & body & bodyData & _ & _ & _ & ->).
  eexists. reflexivity.
Defined.
